(** * Byte-range negotiation of [google.resumable_media._download]

    A shallow embedding of [add_bytes_range] and [get_range_info] from
    [src/google/resumable_media/_download.py], and the properties its
    specification states about them.

    Data model.
    - A Python text is a [string]: a sequence of 8-bit characters.  HTTP
      header values are octets (decoded as Latin-1 by the transports), and
      on that range Python's [\d] is exactly [0-9] and [re.IGNORECASE]
      relates a letter of [bytes] only to its ASCII upper-case form.
    - A Python [int] is a [Z]; [Optional[int]] is [option Z].
    - The headers mapping (a [dict] from text to text, mutated in place) is
      a [gmap string string] passed in and handed back.
    - A raised exception is a value of [exn]; a call that may raise has an
      [outcome]; the zero-argument callback acts on a world that the
      function threads through. *)

From Stdlib Require Import ZArith Ascii String.
From stdpp Require Import gmap strings pretty.

Local Open Scope string_scope.
Local Open Scope Z_scope.

(** ** Texts and integers *)

(** [u'{:d}'.format(n)]: the decimal rendering of an integer, a leading
    minus sign for a negative one, no leading zeros. *)
Definition format_d (n : Z) : string := pretty n.

(** What [\d] accepts: the ten ASCII digits. *)
Definition is_digit (c : ascii) : bool :=
  let n := N_of_ascii c in ((48 <=? n) && (n <=? 57))%N.

Definition digit_value (c : ascii) : Z := Z.of_N (N_of_ascii c) - 48.

Fixpoint all_digits (s : string) : bool :=
  match s with
  | EmptyString => true
  | String c s' => is_digit c && all_digits s'
  end.

(** A non-empty run of digits: what a [\d+] group can hold. *)
Definition is_number (s : string) : bool :=
  match s with
  | EmptyString => false
  | String _ _ => all_digits s
  end.

Fixpoint decimal_value (acc : Z) (s : string) : Z :=
  match s with
  | EmptyString => acc
  | String c s' => decimal_value (10 * acc + digit_value c) s'
  end.

(** [int(s)] on a non-empty run of ASCII digits is its decimal value.  The
    other texts [int] accepts (signs, blanks, underscores) are outside this
    model: [None] stands for them, and [get_range_info] never reaches it
    (lemma [re_match_groups_numbers]). *)
Definition int (s : string) : option Z :=
  if is_number s then Some (decimal_value 0 s) else None.

(** ** [add_bytes_range] *)

(** Modelled from the spec: [_helpers.RANGE_HEADER], a constant of
    [_helpers], which is not among the sources; the spec's scenarios and the
    docstring of [add_bytes_range] read the value back as
    [headers['range']]. *)
Definition RANGE_HEADER : string := "range".

(** The branches of [add_bytes_range] that compute [bytes_range]; [None] is
    the early [return] taken when both bounds are [None]. *)
Definition bytes_range (start end_ : option Z) : option string :=
  match start with
  | None =>
      match end_ with
      | None => None
      | Some e => Some ("0-" +:+ format_d e)
      end
  | Some s =>
      match end_ with
      | None =>
          if s <? 0 then Some (format_d s)
          else Some (format_d s +:+ "-")
      | Some e => Some (format_d s +:+ "-" +:+ format_d e)
      end
  end.

(** [add_bytes_range(start, end, headers)]: the mapping after the call.  The
    function returns nothing; the assignment
    [headers[RANGE_HEADER] = u'bytes=' + bytes_range] is its only effect. *)
Definition add_bytes_range (start end_ : option Z)
    (headers : gmap string string) : gmap string string :=
  match bytes_range start end_ with
  | None => headers
  | Some r => <[RANGE_HEADER := "bytes=" +:+ r]> headers
  end.

(** ** The regular expression [_CONTENT_RANGE_RE] *)

(** The constructs the pattern is written with. *)
Inductive regex :=
| Lit (text : string)                 (* literal characters *)
| Digits                              (* [\d+], greedy *)
| Named (name : string) (r : regex)   (* [(?P<name>r)] *)
| Cat (r1 r2 : regex).                (* [r1] followed by [r2] *)

(** A compiled pattern: the expression and whether [re.IGNORECASE] is set. *)
Record pattern := re_compile { expr : regex; ignorecase : bool }.

(** The lower-case form of a character: [A-Z] to [a-z], the rest as it
    is. *)
Definition lower (c : ascii) : ascii :=
  let n := N_of_ascii c in
  if ((65 <=? n) && (n <=? 90))%N then ascii_of_N (n + 32) else c.

(** Whether the input character [d] matches the pattern character [c]. *)
Definition char_matches (icase : bool) (c d : ascii) : bool :=
  if icase then bool_decide (lower c = lower d) else bool_decide (c = d).

(** Matching a literal at the head of the input: the input characters it
    consumed (in the input's own case) and what follows them. *)
Fixpoint strip_literal (icase : bool) (text s : string)
    : option (string * string) :=
  match text with
  | EmptyString => Some (EmptyString, s)
  | String c text' =>
      match s with
      | EmptyString => None
      | String d s' =>
          if char_matches icase c d then
            match strip_literal icase text' s' with
            | Some (m, rest) => Some (String d m, rest)
            | None => None
            end
          else None
      end
  end.

(** The ways [\d+] can match at the head of the input, in the order the
    engine tries them: the longest run first, then each shorter one as it
    backtracks.  Each way is the run and the rest of the input. *)
Fixpoint digit_runs (s : string) : list (string * string) :=
  match s with
  | EmptyString => []
  | String c s' =>
      if is_digit c then
        map (λ way, (String c way.1, way.2)) (digit_runs s')
          ++ [(String c EmptyString, s')]
      else []
  end.

(** One way of matching: the text consumed, the named groups it captured,
    the rest of the input. *)
Record way := Way {
  consumed : string;
  captured : list (string * string);
  remaining : string
}.

(** All the ways an expression matches at the head of the input, in the
    engine's order of preference. *)
Fixpoint ways (icase : bool) (r : regex) (s : string) : list way :=
  match r with
  | Lit text =>
      match strip_literal icase text s with
      | Some (m, rest) => [Way m [] rest]
      | None => []
      end
  | Digits => map (λ run, Way run.1 [] run.2) (digit_runs s)
  | Named name r' =>
      map (λ w, Way (consumed w) ((name, consumed w) :: captured w)
                    (remaining w))
          (ways icase r' s)
  | Cat r1 r2 =>
      w1 ← ways icase r1 s;
      map (λ w2, Way (consumed w1 +:+ consumed w2)
                     (captured w1 ++ captured w2) (remaining w2))
          (ways icase r2 (remaining w1))
  end.

(** [pattern.match(s)]: anchored at the start of [s] and nowhere else; the
    match object is the first way, [None] when there is none. *)
Definition re_match (p : pattern) (s : string) : option way :=
  head (ways (ignorecase p) (expr p) s).

(** [match.group(name)]. *)
Fixpoint assoc (name : string) (groups : list (string * string))
    : option string :=
  match groups with
  | [] => None
  | (n, v) :: groups' => if bool_decide (n = name) then Some v
                         else assoc name groups'
  end.

Definition group (m : way) (name : string) : option string :=
  assoc name (captured m).

(** [re.compile(r'bytes (?P<start_byte>\d+)-(?P<end_byte>\d+)/(?P<total_bytes>\d+)',
    flags=re.IGNORECASE)]. *)
Definition _CONTENT_RANGE_RE : pattern :=
  re_compile
    (Cat (Lit "bytes ")
      (Cat (Named "start_byte" Digits)
        (Cat (Lit "-")
          (Cat (Named "end_byte" Digits)
            (Cat (Lit "/")
              (Named "total_bytes" Digits))))))
    true.

(** ** Responses, exceptions and effects *)

(** The response object, as far as this module looks at it: something
    whose headers can be looked up by name. *)
Record Response := { headers : gmap string string }.

(** The exceptions a call can end with. *)
Inductive exn :=
| InvalidResponse (response : Response) (message observed expected : string)
    (* [exceptions.InvalidResponse(response, message, observed, expected)] *)
| HeaderMissing (response : Response) (name : string)
    (* the failure of the header lookup, see [header_required] *)
| IndexError (name : string)          (* [match.group] of an unknown name *)
| ValueError (text : string)          (* [int] of a text it cannot read *)
| Raised (what : string).             (* anything a callable may raise *)

Inductive outcome (A : Type) :=
| Return (a : A)
| Raise (e : exn).
Arguments Return {A} a.
Arguments Raise {A} e.

Section Effects.
(** What a callback can observe and change. *)
Context {W : Type}.

(** The world a call runs in: the state the callbacks act on, and the
    number of times a callback has been invoked so far. *)
Record world := World { invocations : nat; store : W }.

Definition action (A : Type) : Type := world → world * outcome A.

Definition ret {A} (a : A) : action A := λ w, (w, Return a).
Definition raise {A} (e : exn) : action A := λ w, (w, Raise e).
Definition lift {A} (o : outcome A) : action A := λ w, (w, o).
Definition bind {A B} (m : action A) (k : A → action B) : action B :=
  λ w, match m w with
       | (w', Return a) => k a w'
       | (w', Raise e) => (w', Raise e)
       end.

(** A Python callable of no argument that returns nothing: it changes
    the state and comes back, or raises. *)
Definition callable : Type := W → W * outcome unit.

(** [f()]. *)
Definition call (f : callable) : action unit :=
  λ w, let (s, r) := f (store w) in (World (S (invocations w)) s, r).

(** Modelled from the spec: [_helpers.do_nothing], the default of the
    [callback] parameter, which is not among the sources: a callable
    that performs no observable action. *)
Definition do_nothing : callable := λ s, (s, Return tt).
End Effects.
Arguments world W : clear implicits.
Arguments action W A : clear implicits.
Arguments callable W : clear implicits.

Notation "'let!' x ':=' m 'in' k" := (bind m (λ x, k))
  (at level 10, x name, m at level 100, k at level 200,
   format "'[v' 'let!'  x  ':='  m  'in' '/' k ']'").
Notation "m ';;;' k" := (bind m (λ _, k))
  (at level 100, k at level 200, right associativity).

(** ** [get_range_info] *)

(** Modelled from the spec: [_helpers.CONTENT_RANGE_HEADER], a constant of
    [_helpers], which is not among the sources: the name under which the
    [Content-Range] header is looked up. *)
Definition CONTENT_RANGE_HEADER : string := "content-range".

(** Modelled from the spec: [_helpers.header_required(response, name)],
    which is not among the sources: the value of the header, and a failure
    of its own when the header is absent. *)
Definition header_required (response : Response) (name : string)
    : outcome string :=
  match headers response !! name with
  | Some value => Return value
  | None => Raise (HeaderMissing response name)
  end.

(** The fourth argument of the [InvalidResponse] raised by
    [get_range_info]; the character of code 34 is the double quote. *)
Definition expected_form : string :=
  "Expected to be of the form "
    +:+ String "034" ("bytes {start}-{end}/{total}" +:+ String "034" "").

Section GetRangeInfo.
Context {W : Type}.

(** The header lookup [get_range_info] relies on: any function of the
    response and the header name that returns a text or raises. *)
Variable lookup_header : Response → string → outcome string.

(** [int(match.group(name))]. *)
Definition int_group (m : way) (name : string) : action W Z :=
  match group m name with
  | None => raise (IndexError name)
  | Some text =>
      match int text with
      | None => raise (ValueError text)
      | Some n => ret n
      end
  end.

(** [get_range_info(response, callback)]; a caller that gives no callback
    gets [do_nothing]. *)
Definition get_range_info (response : Response) (callback : callable W)
    : action W (Z * Z * Z) :=
  let! content_range :=
    lift (lookup_header response CONTENT_RANGE_HEADER) in
  match re_match _CONTENT_RANGE_RE content_range with
  | None =>
      call callback ;;;
      raise (InvalidResponse response "Unexpected content-range header"
               content_range expected_form)
  | Some m =>
      let! start_byte := int_group m "start_byte" in
      let! end_byte := int_group m "end_byte" in
      let! total_bytes := int_group m "total_bytes" in
      ret (start_byte, end_byte, total_bytes)
  end.
End GetRangeInfo.

(** ** The grammar of the specification, and a scanner *)

Fixpoint lower_text (s : string) : string :=
  match s with
  | EmptyString => EmptyString
  | String c s' => String (lower c) (lower_text s')
  end.

(** A spelling of the unit token [bytes] in any mix of cases. *)
Definition is_bytes_token (tok : string) : bool :=
  bool_decide (lower_text tok = "bytes").

(** The grammar in the words of the specification: the token [bytes] in any
    case, one space, and [{start}-{end}/{total}] with three non-negative
    decimal integers; nothing before and nothing after. *)
Definition content_range_grammar (v : string) : Prop :=
  ∃ tok s e t : string,
    v = tok +:+ " " +:+ s +:+ "-" +:+ e +:+ "/" +:+ t
    ∧ is_bytes_token tok = true
    ∧ is_number s = true ∧ is_number e = true ∧ is_number t = true.

(** The longest run of digits at the head of a text, and what follows. *)
Fixpoint span_digits (s : string) : string * string :=
  match s with
  | EmptyString => (EmptyString, EmptyString)
  | String c s' =>
      if is_digit c then
        let (run, rest) := span_digits s' in (String c run, rest)
      else (EmptyString, s)
  end.

Definition starts_with_digit (s : string) : bool :=
  match s with
  | EmptyString => false
  | String c _ => is_digit c
  end.

(** [\d+] read without backtracking, named [name]. *)
Definition scan_number (name : string) (s : string) : option way :=
  let (run, rest) := span_digits s in
  if is_number run then Some (Way run [(name, run)] rest) else None.

(** A literal and then the rest of a pattern. *)
Definition scan_literal (text : string) (k : string → option way)
    (s : string) : option way :=
  match strip_literal true text s with
  | None => None
  | Some (m, rest) =>
      match k rest with
      | None => None
      | Some w => Some (Way (m +:+ consumed w) (captured w) (remaining w))
      end
  end.

(** A number and then the rest of a pattern. *)
Definition scan_then (name : string) (k : string → option way)
    (s : string) : option way :=
  match scan_number name s with
  | None => None
  | Some w1 =>
      match k (remaining w1) with
      | None => None
      | Some w2 => Some (Way (consumed w1 +:+ consumed w2)
                             (captured w1 ++ captured w2) (remaining w2))
      end
  end.

(** The pattern read from left to right, each [\d+] taking the longest run
    of digits once and for all. *)
Definition scan_content_range : string → option way :=
  scan_literal "bytes "
    (scan_then "start_byte"
      (scan_literal "-"
        (scan_then "end_byte"
          (scan_literal "/"
            (scan_number "total_bytes"))))).

(** The exception of the malformed-range path of [get_range_info]. *)
Definition malformed_error (response : Response) (v : string) : exn :=
  InvalidResponse response "Unexpected content-range header" v expected_form.

(** A response whose only header is a [Content-Range] of value [v]. *)
Definition response_with (v : string) : Response :=
  {| headers := {[ CONTENT_RANGE_HEADER := v ]} |}.

(** A callback that leaves a mark in a store of marks. *)
Definition mark : callable (list string) :=
  λ s, ("called" :: s, Return tt).

(** A callback that raises. *)
Definition failing : callable (list string) :=
  λ s, (s, Raise (Raised "callback")).

(** ** [DownloadBase] *)

(** The mappings of a program live in a store and are handed around by
    reference: a store binds each reference to the mapping it stands
    for. *)
Abbreviation store_of_mappings := (gmap positive (gmap string string)).

Module DownloadBase.

(** The attributes [__init__] sets. *)
Record t := {
  media_url : string;
  start : option Z;
  end_ : option Z;
  _headers : positive;
  _finished : bool
}.

(** [DownloadBase(media_url, start, end, headers)]: when [headers] is
    [None] a new empty mapping is made, otherwise the mapping given is kept
    as it is, by reference; the store after the call is returned with the
    object. *)
Definition __init__ (media_url : string) (start end_ : option Z)
    (headers : option positive) (h : store_of_mappings)
    : t * store_of_mappings :=
  let (headers, h) :=
    match headers with
    | None => let r := fresh (dom h) in (r, <[r := ∅]> h)
    | Some r => (r, h)
    end in
  ({| media_url := media_url; start := start; end_ := end_;
      _headers := headers; _finished := false |}, h).

(** The property [finished]. *)
Definition finished (self : t) : bool := _finished self.

End DownloadBase.

(** [add_bytes_range(start, end, headers)] where [headers] is a reference:
    the mapping it stands for is updated in the store. *)
Definition add_bytes_range_in (start end_ : option Z) (headers : positive)
    (h : store_of_mappings) : store_of_mappings :=
  match h !! headers with
  | Some mapping => <[headers := add_bytes_range start end_ mapping]> h
  | None => h
  end.

(** ** Requests the source documents as valid *)

(** The bounds the docstring and the notes of [add_bytes_range] allow:
    [end] is assumed non-negative, and [start] may be negative only when
    [end] is [None]. *)
Definition documented_request (start end_ : option Z) : bool :=
  match start, end_ with
  | None, None => true
  | None, Some e => 0 <=? e
  | Some s, None => true
  | Some s, Some e => (0 <=? s) && (0 <=? e)
  end.

(** A request with no [start] and an [end] asks for the same bytes as the
    one that starts at 0. *)
Definition canonical_request (start end_ : option Z)
    : option Z * option Z :=
  match start, end_ with
  | None, Some e => (Some 0, Some e)
  | _, _ => (start, end_)
  end.

(** A text made of the digit 0 only. *)
Fixpoint all_zeros (s : string) : bool :=
  match s with
  | EmptyString => true
  | String c s' => bool_decide (c = "0"%char) && all_zeros s'
  end.

(** ** Other notions the properties are stated with *)

(** The unit token of a value: its first five characters. *)
Definition unit_token (v : string) : string := substring 0 5 v.

(** The default limit of recent interpreters (CPython 3.11 and later, and
    the security releases of 3.7 to 3.10) on the number of digits in a
    conversion between [int] and text: [int(s)] and [u'{:d}'.format(n)]
    raise [ValueError] past it.  Earlier interpreters have no limit. *)
Definition int_max_str_digits : nat := 4300.

(** * Properties *)

(** ** Decimal texts *)

Lemma is_digit_value c : is_digit c = true → 0 ≤ digit_value c ≤ 9.
Proof.
  unfold is_digit, digit_value. intros H.
  apply andb_true_iff in H as [H1 H2].
  apply N.leb_le in H1, H2. lia.
Qed.

Lemma decimal_value_nonneg s acc :
  all_digits s = true → 0 ≤ acc → 0 ≤ decimal_value acc s.
Proof.
  revert acc. induction s as [|c s IH]; intros acc Hs Hacc; simpl in *.
  - done.
  - apply andb_true_iff in Hs as [Hc Hs].
    apply IH; [done|]. pose proof (is_digit_value c Hc). lia.
Qed.

Lemma is_number_all_digits s : is_number s = true → all_digits s = true.
Proof. by destruct s. Qed.

Lemma int_is_Some s : is_number s = true → int s = Some (decimal_value 0 s).
Proof. unfold int. by intros ->. Qed.

Lemma int_nonneg s n : int s = Some n → 0 ≤ n.
Proof.
  unfold int. destruct (is_number s) eqn:Hs; [|done].
  intros [= <-]. apply decimal_value_nonneg; [|done].
  by apply is_number_all_digits.
Qed.

Lemma pretty_N_char_digit (d : N) :
  (d < 10)%N →
  is_digit (pretty_N_char d) = true
  ∧ digit_value (pretty_N_char d) = Z.of_N d.
Proof.
  intros Hd.
  assert (d = 0 ∨ d = 1 ∨ d = 2 ∨ d = 3 ∨ d = 4 ∨ d = 5 ∨ d = 6
          ∨ d = 7 ∨ d = 8 ∨ d = 9)%N as Hcases by lia.
  repeat (destruct Hcases as [->|Hcases]; [by vm_compute|]).
  subst d. by vm_compute.
Qed.

Lemma pretty_N_go_number (x : N) (s : string) :
  is_number s = true → is_number (pretty_N_go x s) = true.
Proof.
  revert s. induction (N.lt_wf_0 x) as [x _ IH]; intros s Hs.
  assert (x = 0 ∨ 0 < x)%N as [->|Hx] by lia.
  - by rewrite pretty_N_go_0.
  - rewrite pretty_N_go_step by done.
    apply IH; [by apply N.div_lt|].
    destruct (pretty_N_char_digit (x `mod` 10)) as [Hd _].
    { by apply N.mod_lt. }
    simpl. rewrite Hd. by apply is_number_all_digits.
Qed.

Lemma pretty_N_go_value (x : N) (s : string) :
  decimal_value 0 (pretty_N_go x s) = decimal_value (Z.of_N x) s.
Proof.
  revert s. induction (N.lt_wf_0 x) as [x _ IH]; intros s.
  assert (x = 0 ∨ 0 < x)%N as [->|Hx] by lia.
  - by rewrite pretty_N_go_0.
  - rewrite pretty_N_go_step by done.
    rewrite IH by (by apply N.div_lt). simpl.
    destruct (pretty_N_char_digit (x `mod` 10)) as [_ ->].
    { by apply N.mod_lt. }
    f_equal. rewrite N2Z.inj_div, N2Z.inj_mod.
    pose proof (Z.div_mod (Z.of_N x) 10). lia.
Qed.

(** The rendering of a non-negative integer is a run of digits, and [int]
    reads it back. *)
Lemma format_d_number (n : Z) : 0 ≤ n → is_number (format_d n) = true.
Proof.
  intros Hn. destruct n as [|p|p]; [done| |lia].
  change (format_d (Z.pos p)) with (pretty (N.pos p)).
  unfold pretty, pretty_N. case_decide; [done|].
  rewrite pretty_N_go_step by lia.
  apply pretty_N_go_number. simpl.
  destruct (pretty_N_char_digit (N.pos p `mod` 10)) as [-> _]; [|done].
  by apply N.mod_lt.
Qed.

Lemma int_format_d (n : Z) : 0 ≤ n → int (format_d n) = Some n.
Proof.
  intros Hn. rewrite int_is_Some by (by apply format_d_number).
  f_equal. destruct n as [|p|p]; [done| |lia].
  change (format_d (Z.pos p)) with (pretty (N.pos p)).
  unfold pretty, pretty_N. case_decide; [done|].
  by rewrite pretty_N_go_value.
Qed.

(** A negative integer is rendered as a minus sign and its magnitude. *)
Lemma format_d_negative (n : Z) :
  n < 0 → format_d n = "-" +:+ format_d (- n).
Proof. intros Hn. destruct n as [|p|p]; [lia|lia|done]. Qed.

(** ** The scanner and the backtracking engine agree *)

Lemma append_nil (t : string) : "" +:+ t = t.
Proof. reflexivity. Qed.

Lemma append_cons (c : ascii) (s t : string) :
  String c s +:+ t = String c (s +:+ t).
Proof. reflexivity. Qed.

Lemma append_assoc (s t u : string) : (s +:+ t) +:+ u = s +:+ t +:+ u.
Proof.
  induction s as [|c s IH]; [done|]. by rewrite !append_cons, IH.
Qed.

Lemma span_digits_spec s :
  s = (span_digits s).1 +:+ (span_digits s).2
  ∧ all_digits (span_digits s).1 = true
  ∧ starts_with_digit (span_digits s).2 = false.
Proof.
  induction s as [|c s (IH1 & IH2 & IH3)]; simpl; [done|].
  destruct (is_digit c) eqn:Hc.
  - destruct (span_digits s) as [run rest]; simpl in *.
    rewrite Hc. split; [|done]. by rewrite IH1 at 1.
  - simpl. by rewrite Hc.
Qed.

Lemma span_digits_app run rest :
  all_digits run = true → starts_with_digit rest = false →
  span_digits (run +:+ rest) = (run, rest).
Proof.
  intros Hrun Hrest. induction run as [|c run IH]; simpl in *.
  - destruct rest as [|d rest]; simpl in *; [done|]. by rewrite Hrest.
  - apply andb_true_iff in Hrun as [-> Hrun]. by rewrite IH.
Qed.

(** The first run the engine tries is the longest one, and every run it
    falls back to stops in front of a digit. *)
Lemma digit_runs_span s :
  if is_number (span_digits s).1 then
    ∃ others, digit_runs s = span_digits s :: others
      ∧ Forall (λ run : string * string, starts_with_digit run.2 = true) others
  else digit_runs s = [].
Proof.
  induction s as [|c s IH]; simpl; [done|].
  destruct (is_digit c) eqn:Hc; [|done].
  destruct (span_digits_spec s) as (Hs & Hall & _).
  destruct (span_digits s) as [run rest]; simpl in *.
  rewrite Hc, Hall. simpl.
  destruct run as [|d run]; simpl in *.
  - rewrite append_nil in Hs. subst rest. rewrite IH. by exists [].
  - rewrite Hall in IH. destruct IH as (others & -> & Hothers).
    eexists. split; [done|].
    apply Forall_app. split.
    + apply Forall_fmap. by eapply Forall_impl.
    + apply Forall_singleton. simpl. rewrite Hs, append_cons. simpl.
      by apply andb_true_iff in Hall as [-> _].
Qed.

Lemma scan_number_correct icase name s :
  head (ways icase (Named name Digits) s) = scan_number name s.
Proof.
  unfold scan_number. simpl.
  pose proof (digit_runs_span s) as H.
  destruct (span_digits s) as [run rest]; simpl in *.
  destruct (is_number run).
  - by destruct H as (others & -> & _).
  - by rewrite H.
Qed.

Lemma scan_literal_correct icase text K k s :
  (∀ r, head (ways icase K r) = k r) →
  icase = true →
  head (ways icase (Cat (Lit text) K) s) = scan_literal text k s.
Proof.
  intros Hk ->. unfold scan_literal. simpl.
  destruct (strip_literal true text s) as [[m rest]|]; simpl; [|done].
  rewrite app_nil_r, <-Hk.
  by destruct (ways true K rest).
Qed.

Lemma scan_then_correct icase name K k s :
  (∀ r, starts_with_digit r = true → ways icase K r = []) →
  (∀ r, head (ways icase K r) = k r) →
  head (ways icase (Cat (Named name Digits) K) s) = scan_then name k s.
Proof.
  intros Hblocked Hk. unfold scan_then, scan_number. simpl.
  pose proof (digit_runs_span s) as H.
  destruct (span_digits s) as [run rest]; simpl in *.
  destruct (is_number run).
  - destruct H as (others & -> & Hothers). simpl.
    match goal with |- head (_ ++ ?l) = _ => assert (l = []) as -> end.
    { induction Hothers as [|[m r] others Hr _ IH]; simpl; [done|].
      simpl in Hr. by rewrite (Hblocked r Hr), IH. }
    rewrite app_nil_r, <-Hk.
    by destruct (ways icase K rest).
  - by rewrite H.
Qed.

(** A literal that begins with [-] or [/] does not match in front of a
    digit: the engine gains nothing from a shorter run. *)
Lemma literal_blocked icase c text K r :
  c = "-"%char ∨ c = "/"%char →
  starts_with_digit r = true →
  ways icase (Cat (Lit (String c text)) K) r = [].
Proof.
  intros Hc Hr. destruct r as [|d r]; simpl in *; [done|].
  assert (char_matches icase c d = false) as ->; [|done].
  destruct d as [[] [] [] [] [] [] [] []]; try discriminate Hr;
    destruct Hc as [-> | ->], icase; by vm_compute.
Qed.

Theorem re_match_scan v :
  re_match _CONTENT_RANGE_RE v = scan_content_range v.
Proof.
  unfold re_match, scan_content_range, _CONTENT_RANGE_RE, ignorecase, expr.
  apply scan_literal_correct; [|done]. intros r0.
  apply scan_then_correct; [intros; by apply literal_blocked; auto|].
  intros r1. apply scan_literal_correct; [|done]. intros r2.
  apply scan_then_correct; [intros; by apply literal_blocked; auto|].
  intros r3. apply scan_literal_correct; [|done]. intros r4.
  apply scan_number_correct.
Qed.

(** ** What the scanner accepts *)

Lemma lower_text_app a b :
  lower_text (a +:+ b) = lower_text a +:+ lower_text b.
Proof.
  induction a as [|c a IH]; [done|].
  rewrite append_cons. simpl. by rewrite IH.
Qed.

Lemma strip_literal_Some text s m rest :
  strip_literal true text s = Some (m, rest) →
  s = m +:+ rest ∧ lower_text m = lower_text text.
Proof.
  revert s m. induction text as [|c text IH]; intros s m; simpl.
  - by intros [= <- <-].
  - destruct s as [|d s]; [done|].
    destruct (bool_decide (lower c = lower d)) eqn:Hcd; [|done].
    apply bool_decide_eq_true in Hcd.
    destruct (strip_literal true text s) as [[m' rest']|] eqn:Hs; [|done].
    intros [= <- <-]. apply IH in Hs as [-> Hm].
    rewrite append_cons. simpl. by rewrite Hcd, Hm.
Qed.

Lemma strip_literal_app text m rest :
  lower_text m = lower_text text →
  strip_literal true text (m +:+ rest) = Some (m, rest).
Proof.
  revert m. induction text as [|c text IH]; intros [|d m] Hm;
    simpl in Hm; try done.
  injection Hm as Hd Hm. rewrite append_cons. simpl.
  rewrite bool_decide_eq_true_2 by done. by rewrite IH.
Qed.

(** Only the letters have two cases: a character that matches a space, a
    dash or a slash is that character. *)
Lemma lower_separator c d :
  c = " "%char ∨ c = "-"%char ∨ c = "/"%char → lower c = lower d → d = c.
Proof.
  intros Hc.
  destruct d as [[] [] [] [] [] [] [] []];
    destruct Hc as [-> | [-> | ->]]; vm_compute; congruence.
Qed.

Lemma strip_separator c s m rest :
  c = " "%char ∨ c = "-"%char ∨ c = "/"%char →
  strip_literal true (String c "") s = Some (m, rest) →
  m = String c "" ∧ s = String c rest.
Proof.
  intros Hc Hs. apply strip_literal_Some in Hs as [-> Hm].
  destruct m as [|d [|? ?]]; simpl in Hm; try done.
  injection Hm as Hm. symmetry in Hm.
  apply (lower_separator c d Hc) in Hm as ->. by rewrite append_cons.
Qed.

Lemma scan_number_Some name s w :
  scan_number name s = Some w →
  s = consumed w +:+ remaining w
  ∧ is_number (consumed w) = true
  ∧ captured w = [(name, consumed w)]
  ∧ starts_with_digit (remaining w) = false.
Proof.
  unfold scan_number. destruct (span_digits_spec s) as (Hs & _ & Hrest).
  destruct (span_digits s) as [run rest]; simpl in *.
  destruct (is_number run) eqn:Hrun; [|done].
  by intros [= <-].
Qed.

Lemma scan_number_app name run rest :
  is_number run = true → starts_with_digit rest = false →
  scan_number name (run +:+ rest) = Some (Way run [(name, run)] rest).
Proof.
  intros Hrun Hrest. unfold scan_number.
  rewrite span_digits_app by (by try apply is_number_all_digits).
  by rewrite Hrun.
Qed.

(** The texts the scanner accepts, and what it makes of them. *)
Lemma scan_content_range_Some v w :
  scan_content_range v = Some w →
  ∃ tok s e t : string,
    v = tok +:+ " " +:+ s +:+ "-" +:+ e +:+ "/" +:+ t +:+ remaining w
    ∧ is_bytes_token tok = true
    ∧ is_number s = true ∧ is_number e = true ∧ is_number t = true
    ∧ starts_with_digit (remaining w) = false
    ∧ consumed w = tok +:+ " " +:+ s +:+ "-" +:+ e +:+ "/" +:+ t
    ∧ captured w = [("start_byte", s); ("end_byte", e); ("total_bytes", t)].
Proof.
  unfold scan_content_range, scan_literal, scan_then.
  destruct (strip_literal true "bytes " v) as [[m0 r0]|] eqn:H0; [|done].
  destruct (scan_number "start_byte" r0) as [w1|] eqn:H1; [|done].
  destruct (strip_literal true "-" (remaining w1)) as [[m2 r2]|] eqn:H2;
    [|done].
  destruct (scan_number "end_byte" r2) as [w3|] eqn:H3; [|done].
  destruct (strip_literal true "/" (remaining w3)) as [[m4 r4]|] eqn:H4;
    [|done].
  destruct (scan_number "total_bytes" r4) as [w5|] eqn:H5; [|done].
  intros [= <-]. simpl.
  apply strip_literal_Some in H0 as [-> Htok].
  apply scan_number_Some in H1 as (-> & Hs & -> & _).
  apply strip_separator in H2 as [-> ->]; [|auto].
  apply scan_number_Some in H3 as (-> & He & -> & _).
  apply strip_separator in H4 as [-> ->]; [|auto].
  apply scan_number_Some in H5 as (-> & Ht & -> & Hrest).
  destruct m0 as [|c1 [|c2 [|c3 [|c4 [|c5 [|c6 [|? ?]]]]]]];
    simpl in Htok; try done.
  injection Htok as Hc1 Hc2 Hc3 Hc4 Hc5 Hc6.
  symmetry in Hc6. apply (lower_separator " " c6) in Hc6 as ->; [|auto].
  exists (String c1 (String c2 (String c3 (String c4 (String c5 ""))))),
    (consumed w1), (consumed w3), (consumed w5).
  unfold is_bytes_token. simpl.
  rewrite Hc1, Hc2, Hc3, Hc4, Hc5.
  rewrite !append_cons, !append_nil. repeat split; done.
Qed.

Lemma append_nil_r (s : string) : s +:+ "" = s.
Proof. induction s as [|c s IH]; [done|]. by rewrite append_cons, IH. Qed.

Lemma all_digits_app a b :
  all_digits (a +:+ b) = all_digits a && all_digits b.
Proof.
  induction a as [|c a IH]; [done|].
  rewrite append_cons. simpl. rewrite IH. by rewrite andb_assoc.
Qed.

Lemma is_number_app a b :
  is_number a = true → all_digits b = true → is_number (a +:+ b) = true.
Proof.
  intros Ha Hb. destruct a as [|c a]; [done|].
  rewrite append_cons. simpl in *.
  by rewrite all_digits_app, Hb, andb_true_r.
Qed.

Lemma scan_content_range_app tok s e t rest :
  is_bytes_token tok = true →
  is_number s = true → is_number e = true → is_number t = true →
  starts_with_digit rest = false →
  scan_content_range
    (tok +:+ " " +:+ s +:+ "-" +:+ e +:+ "/" +:+ t +:+ rest)
  = Some (Way (tok +:+ " " +:+ s +:+ "-" +:+ e +:+ "/" +:+ t)
              [("start_byte", s); ("end_byte", e); ("total_bytes", t)]
              rest).
Proof.
  intros Htok Hs He Ht Hrest.
  apply bool_decide_eq_true in Htok.
  unfold scan_content_range, scan_literal, scan_then.
  rewrite <-(append_assoc tok " ").
  rewrite (strip_literal_app "bytes " (tok +:+ " "))
    by (by rewrite lower_text_app, Htok).
  rewrite (scan_number_app _ s) by done. simpl. rewrite append_nil.
  rewrite (scan_number_app _ e) by done. simpl. rewrite append_nil.
  rewrite (scan_number_app _ t) by done. simpl.
  by rewrite !append_assoc.
Qed.

(** The grammar of the specification is what the scanner accepts when it
    consumes the whole text. *)
Lemma content_range_grammar_scan v :
  content_range_grammar v
  ↔ ∃ w, scan_content_range v = Some w ∧ remaining w = "".
Proof.
  split.
  - intros (tok & s & e & t & -> & Htok & Hs & He & Ht).
    rewrite <-(append_nil_r t).
    rewrite scan_content_range_app by done. by eexists.
  - intros (w & Hw & Hrest).
    apply scan_content_range_Some in Hw
      as (tok & s & e & t & -> & Htok & Hs & He & Ht & _).
    rewrite Hrest, append_nil_r. by exists tok, s, e, t.
Qed.

(** The pattern matches exactly the texts that begin with a text of the
    grammar: what follows the total is not looked at. *)
Lemma re_match_prefix v :
  is_Some (re_match _CONTENT_RANGE_RE v)
  ↔ ∃ p rest, v = p +:+ rest ∧ content_range_grammar p.
Proof.
  rewrite re_match_scan. split.
  - intros [w Hw].
    apply scan_content_range_Some in Hw
      as (tok & s & e & t & -> & Htok & Hs & He & Ht & _).
    exists (tok +:+ " " +:+ s +:+ "-" +:+ e +:+ "/" +:+ t), (remaining w).
    split; [by rewrite !append_assoc|]. by exists tok, s, e, t.
  - intros (p & rest & -> & tok & s & e & t & -> & Htok & Hs & He & Ht).
    destruct (span_digits_spec rest) as (Hrest & Hd & Hr).
    destruct (span_digits rest) as [d r]; simpl in *. subst rest.
    rewrite !append_assoc, <-(append_assoc t d).
    rewrite scan_content_range_app; auto using is_number_app.
Qed.

(** The groups of a match are the three numbers of the header, so the
    reading of a group never fails. *)
Lemma re_match_groups_numbers v m :
  re_match _CONTENT_RANGE_RE v = Some m →
  ∃ s e t : string,
    captured m = [("start_byte", s); ("end_byte", e); ("total_bytes", t)]
    ∧ is_number s = true ∧ is_number e = true ∧ is_number t = true.
Proof.
  rewrite re_match_scan. intros Hm.
  apply scan_content_range_Some in Hm
    as (tok & s & e & t & _ & _ & Hs & He & Ht & _ & _ & Hm).
  by exists s, e, t.
Qed.

Lemma re_match_well_formed tok s e t :
  is_bytes_token tok = true →
  is_number s = true → is_number e = true → is_number t = true →
  re_match _CONTENT_RANGE_RE
    (tok +:+ " " +:+ s +:+ "-" +:+ e +:+ "/" +:+ t)
  = Some (Way (tok +:+ " " +:+ s +:+ "-" +:+ e +:+ "/" +:+ t)
              [("start_byte", s); ("end_byte", e); ("total_bytes", t)]
              "").
Proof.
  intros Htok Hs He Ht. rewrite re_match_scan.
  rewrite <-(append_nil_r t) at 1. by apply scan_content_range_app.
Qed.

(** ** The three paths of [get_range_info] *)

Section Paths.
Context {W : Type}.
Variable lookup_header : Response → string → outcome string.
Implicit Types (response : Response) (callback : callable W) (w : world W).

(** The failure of the header lookup goes through as it is, and the
    callback is not invoked. *)
Lemma get_range_info_propagates response callback w e :
  lookup_header response CONTENT_RANGE_HEADER = Raise e →
  get_range_info lookup_header response callback w = (w, Raise e).
Proof. intros H. unfold get_range_info, bind, lift. by rewrite H. Qed.

(** No match: the callback runs once, then [InvalidResponse] is raised,
    unless the callback itself raised. *)
Lemma get_range_info_no_match response callback w v :
  lookup_header response CONTENT_RANGE_HEADER = Return v →
  re_match _CONTENT_RANGE_RE v = None →
  get_range_info lookup_header response callback w
  = (World (S (invocations w)) (callback (store w)).1,
     match (callback (store w)).2 with
     | Return _ => Raise (malformed_error response v)
     | Raise e => Raise e
     end).
Proof.
  intros H Hv. unfold get_range_info, bind, lift, call, raise.
  rewrite H, Hv. by destruct (callback (store w)) as [s' [[]|e]].
Qed.

(** A match: the three groups are read as integers and returned; the
    callback is not invoked. *)
Lemma get_range_info_match response callback w v m :
  lookup_header response CONTENT_RANGE_HEADER = Return v →
  re_match _CONTENT_RANGE_RE v = Some m →
  ∃ s e t : string,
    captured m = [("start_byte", s); ("end_byte", e); ("total_bytes", t)]
    ∧ is_number s = true ∧ is_number e = true ∧ is_number t = true
    ∧ get_range_info lookup_header response callback w
      = (w, Return (decimal_value 0 s, decimal_value 0 e,
                    decimal_value 0 t)).
Proof.
  intros H Hv.
  destruct (re_match_groups_numbers v m Hv) as (s & e & t & Hm & Hs & He & Ht).
  exists s, e, t. repeat split; try done.
  unfold get_range_info, bind, lift, int_group, group, raise, ret.
  rewrite H, Hv, Hm. simpl.
  by rewrite !int_is_Some by done.
Qed.

(** The call ends in one of these three ways; in particular neither
    [IndexError] nor [ValueError] comes out of the reading of the
    groups. *)
Lemma get_range_info_cases response callback w :
  (∃ e, lookup_header response CONTENT_RANGE_HEADER = Raise e
        ∧ get_range_info lookup_header response callback w = (w, Raise e))
  ∨ (∃ v, lookup_header response CONTENT_RANGE_HEADER = Return v
          ∧ re_match _CONTENT_RANGE_RE v = None
          ∧ get_range_info lookup_header response callback w
            = (World (S (invocations w)) (callback (store w)).1,
               match (callback (store w)).2 with
               | Return _ => Raise (malformed_error response v)
               | Raise e => Raise e
               end))
  ∨ (∃ v m s e t,
       lookup_header response CONTENT_RANGE_HEADER = Return v
       ∧ re_match _CONTENT_RANGE_RE v = Some m
       ∧ captured m
         = [("start_byte", s); ("end_byte", e); ("total_bytes", t)]
       ∧ is_number s = true ∧ is_number e = true ∧ is_number t = true
       ∧ get_range_info lookup_header response callback w
         = (w, Return (decimal_value 0 s, decimal_value 0 e,
                       decimal_value 0 t))).
Proof.
  destruct (lookup_header response CONTENT_RANGE_HEADER) as [v|e] eqn:H.
  - destruct (re_match _CONTENT_RANGE_RE v) as [m|] eqn:Hv.
    + right; right.
      destruct (get_range_info_match response callback w v m H Hv)
        as (s & e & t & ?).
      by exists v, m, s, e, t.
    + right; left. exists v. eauto using get_range_info_no_match.
  - left. exists e. eauto using get_range_info_propagates.
Qed.
End Paths.

Lemma header_required_present response name v :
  headers response !! name = Some v →
  header_required response name = Return v.
Proof. unfold header_required. by intros ->. Qed.

Lemma header_required_absent response name :
  headers response !! name = None →
  header_required response name = Raise (HeaderMissing response name).
Proof. unfold header_required. by intros ->. Qed.

Lemma response_with_lookup v :
  headers (response_with v) !! CONTENT_RANGE_HEADER = Some v.
Proof. apply lookup_singleton_eq. Qed.

Lemma get_range_info_grammar {W : Type}
    (lookup_header : Response → string → outcome string)
    (response : Response) (callback : callable W) (w : world W)
    (tok s e t : string) :
  lookup_header response CONTENT_RANGE_HEADER
    = Return (tok +:+ " " +:+ s +:+ "-" +:+ e +:+ "/" +:+ t) →
  is_bytes_token tok = true →
  is_number s = true → is_number e = true → is_number t = true →
  get_range_info lookup_header response callback w
  = (w, Return (decimal_value 0 s, decimal_value 0 e, decimal_value 0 t)).
Proof.
  intros Hv Htok Hs He Ht.
  pose proof (re_match_well_formed tok s e t Htok Hs He Ht) as Hm.
  destruct (get_range_info_match lookup_header response callback w _ _
              Hv Hm) as (s' & e' & t' & Hgroups & _ & _ & _ & Hcall).
  simpl in Hgroups. by injection Hgroups as <- <- <-.
Qed.

Lemma header_of_response_with v :
  header_required (response_with v) CONTENT_RANGE_HEADER = Return v.
Proof. apply header_required_present, response_with_lookup. Qed.

(** When exactly the malformed-range error comes out (with the default
    callback): when no text of the grammar begins the value. *)
Lemma get_range_info_rejects_iff {W : Type} (response : Response)
    (v : string) (w : world W) :
  headers response !! CONTENT_RANGE_HEADER = Some v →
  (get_range_info header_required response do_nothing w).2
    = Raise (malformed_error response v)
  ↔ ¬ ∃ p rest, v = p +:+ rest ∧ content_range_grammar p.
Proof.
  intros Hv. apply header_required_present in Hv.
  rewrite <-re_match_prefix.
  destruct (re_match _CONTENT_RANGE_RE v) as [m|] eqn:Hm.
  - destruct (get_range_info_match header_required response do_nothing w
                v m Hv Hm) as (s & e & t & _ & _ & _ & _ & ->).
    split; [done|]. intros []. by eexists.
  - rewrite (get_range_info_no_match _ _ _ _ _ Hv Hm). simpl.
    split; [|done]. by intros _ [? ?].
Qed.

(** The scenarios of the specification. *)
Example scenario_1 :
  add_bytes_range (Some 500) (Some 999) ∅ = {[ "range" := "bytes=500-999" ]}.
Proof. reflexivity. Qed.

Example scenario_2 :
  add_bytes_range None (Some 499) ∅ = {[ "range" := "bytes=0-499" ]}.
Proof. reflexivity. Qed.

Example scenario_3 :
  add_bytes_range (Some (-500)) None ∅ = {[ "range" := "bytes=-500" ]}.
Proof. reflexivity. Qed.

Example scenario_4 :
  add_bytes_range (Some 9500) None ∅ = {[ "range" := "bytes=9500-" ]}.
Proof. reflexivity. Qed.

Example scenario_5 :
  get_range_info header_required (response_with "bytes 0-1023/2048")
    mark (World 0 [])
  = (World 0 [], Return (0, 1023, 2048)).
Proof. reflexivity. Qed.

Example scenario_6 :
  get_range_info header_required (response_with "chunks 0-1023/2048")
    mark (World 0 [])
  = (World 1 ["called"],
     Raise (malformed_error (response_with "chunks 0-1023/2048")
              "chunks 0-1023/2048")).
Proof. reflexivity. Qed.

(** The docstring of [add_bytes_range] runs its five calls on one
    mapping: each later call overwrites the key. *)
Example docstring_sequence :
  let h0 := add_bytes_range None None ∅ in
  let h1 := add_bytes_range (Some 500) (Some 999) h0 in
  let h2 := add_bytes_range None (Some 499) h1 in
  let h3 := add_bytes_range (Some (-500)) None h2 in
  let h4 := add_bytes_range (Some 9500) None h3 in
  h0 = ∅ ∧ h1 !! "range" = Some "bytes=500-999"
  ∧ h2 !! "range" = Some "bytes=0-499"
  ∧ h3 !! "range" = Some "bytes=-500"
  ∧ h4 = {[ "range" := "bytes=9500-" ]}.
Proof. by vm_compute. Qed.

(** ** [add_bytes_range] *)

(** C3. With [start] and [end] both [None] the mapping is left as it was;
    for every input, every key other than [range] keeps what it had (or
    stays absent); and when a bound is given the call is exactly one write
    to the key [range]. *)
Theorem add_bytes_range_frame (start end_ : option Z)
    (headers : gmap string string) :
  add_bytes_range None None headers = headers
  ∧ (∀ key, key ≠ RANGE_HEADER →
       add_bytes_range start end_ headers !! key = headers !! key)
  ∧ (start ≠ None ∨ end_ ≠ None →
       ∃ value, add_bytes_range start end_ headers
                = <[RANGE_HEADER := value]> headers).
Proof.
  split; [done|]. unfold add_bytes_range. split.
  - intros key Hkey. destruct (bytes_range start end_); [|done].
    by rewrite lookup_insert_ne.
  - intros Hgiven. unfold bytes_range.
    destruct start as [s|], end_ as [e|]; try destruct (s <? 0);
      try (by eexists).
    destruct Hgiven as [H|H]; by destruct H.
Qed.

Lemma add_bytes_range_frame_witness :
  add_bytes_range (Some 500) (Some 999)
    {[ "accept" := "*/*"; "range" := "bytes=0-1" ]} !! "accept"
  = Some "*/*"
  ∧ ∃ value, add_bytes_range (Some 500) (Some 999) {[ "accept" := "*/*" ]}
             = <[RANGE_HEADER := value]> {[ "accept" := "*/*" ]}.
Proof.
  destruct (add_bytes_range_frame (Some 500) (Some 999)
              {[ "accept" := "*/*"; "range" := "bytes=0-1" ]})
    as (_ & Hother & _).
  destruct (add_bytes_range_frame (Some 500) (Some 999)
              {[ "accept" := "*/*" ]}) as (_ & _ & Hwrite).
  split.
  - rewrite (Hother "accept"); [reflexivity | discriminate].
  - apply Hwrite. left. discriminate.
Defined.

(** C4. With both bounds given, whatever the two integers are (no order
    between them is checked, a negative one is rendered with its sign), the
    call writes [bytes={S}-{E}] under [range], changes nothing else and
    cannot fail; [add_bytes_range(500, 999, {})] leaves
    [{'range': 'bytes=500-999'}]. *)
Theorem add_bytes_range_closed (S E : Z) (headers : gmap string string) :
  add_bytes_range (Some S) (Some E) headers
  = <[RANGE_HEADER := "bytes=" +:+ format_d S +:+ "-" +:+ format_d E]> headers
  ∧ add_bytes_range (Some 500) (Some 999) ∅
    = {[ "range" := "bytes=500-999" ]}
  ∧ add_bytes_range (Some 999) (Some 500) ∅
    = {[ "range" := "bytes=999-500" ]}.
Proof. done. Qed.

(** C5. With [start=None] and a non-negative [end=E] the call writes
    [bytes=0-{E}] under [range], where [{E}] is the run of digits that
    reads back as [E]. *)
Theorem add_bytes_range_first_bytes (E : Z) (headers : gmap string string) :
  0 ≤ E →
  add_bytes_range None (Some E) headers
  = <[RANGE_HEADER := "bytes=0-" +:+ format_d E]> headers
  ∧ int (format_d E) = Some E.
Proof. intros HE. split; [done|]. by apply int_format_d. Qed.

Lemma add_bytes_range_first_bytes_witness :
  0 ≤ 499
  ∧ add_bytes_range None (Some 499) ∅ = {[ "range" := "bytes=0-499" ]}.
Proof.
  assert (0 ≤ 499) as H by lia. split; [exact H|].
  exact (proj1 (add_bytes_range_first_bytes 499 ∅ H)).
Defined.

(** C6. With [end=None]: a non-negative [start=S] gives [bytes={S}-]; a
    negative one gives [bytes={S}], the minus sign and the magnitude with
    no dash after them. *)
Theorem add_bytes_range_open_end (S : Z) (headers : gmap string string) :
  (0 ≤ S →
     add_bytes_range (Some S) None headers
     = <[RANGE_HEADER := "bytes=" +:+ format_d S +:+ "-"]> headers
     ∧ int (format_d S) = Some S)
  ∧ (S < 0 →
     add_bytes_range (Some S) None headers
     = <[RANGE_HEADER := "bytes=" +:+ format_d S]> headers
     ∧ format_d S = "-" +:+ format_d (- S)
     ∧ int (format_d (- S)) = Some (- S)).
Proof.
  unfold add_bytes_range, bytes_range. split; intros HS.
  - rewrite (proj2 (Z.ltb_ge S 0)) by done.
    split; [done|]. by apply int_format_d.
  - rewrite (proj2 (Z.ltb_lt S 0)) by done.
    split; [done|]. split; [by apply format_d_negative|].
    apply int_format_d. lia.
Qed.

Lemma add_bytes_range_open_end_witness :
  (0 ≤ 9500
   ∧ add_bytes_range (Some 9500) None ∅ = {[ "range" := "bytes=9500-" ]})
  ∧ (-500 < 0
     ∧ add_bytes_range (Some (-500)) None ∅ = {[ "range" := "bytes=-500" ]}).
Proof.
  assert (0 ≤ 9500) as Hpos by lia. assert (-500 < 0) as Hneg by lia.
  split; (split; [done|]).
  - exact (proj1 (proj1 (add_bytes_range_open_end 9500 ∅) Hpos)).
  - exact (proj1 (proj2 (add_bytes_range_open_end (-500) ∅) Hneg)).
Defined.

(** ** [get_range_info] *)

(** C2. When the [Content-Range] value is [bytes {start}-{end}/{total}]
    (the token in any case, three runs of digits), the call returns the
    three runs read as integers, whatever their order, and does not touch
    the callback; [bytes 500-999/1000] gives [(500, 999, 1000)] and
    [bytes 0-1023/2048] gives [(0, 1023, 2048)]. *)
Theorem get_range_info_well_formed {W : Type}
    (lookup_header : Response → string → outcome string)
    (response : Response) (callback : callable W) (w : world W)
    (tok s e t : string) :
  lookup_header response CONTENT_RANGE_HEADER
    = Return (tok +:+ " " +:+ s +:+ "-" +:+ e +:+ "/" +:+ t) →
  is_bytes_token tok = true →
  is_number s = true → is_number e = true → is_number t = true →
  ∃ start_byte end_byte total_bytes : Z,
    int s = Some start_byte ∧ int e = Some end_byte
    ∧ int t = Some total_bytes
    ∧ get_range_info lookup_header response callback w
      = (w, Return (start_byte, end_byte, total_bytes)).
Proof.
  intros Hv Htok Hs He Ht.
  exists (decimal_value 0 s), (decimal_value 0 e), (decimal_value 0 t).
  rewrite !int_is_Some by done. repeat split.
  by apply (get_range_info_grammar lookup_header response callback w tok).
Qed.

Lemma get_range_info_well_formed_witness :
  get_range_info header_required (response_with "bytes 500-999/1000")
    mark (World 0 [])
  = (World 0 [], Return (500, 999, 1000))
  ∧ get_range_info header_required (response_with "bytes 0-1023/2048")
      mark (World 0 [])
    = (World 0 [], Return (0, 1023, 2048))
  ∧ get_range_info header_required (response_with "bytes 999-500/10")
      mark (World 0 [])
    = (World 0 [], Return (999, 500, 10)).
Proof.
  split; [|split].
  - destruct (get_range_info_well_formed header_required
                (response_with "bytes 500-999/1000") mark (World 0 [])
                "bytes" "500" "999" "1000")
      as (a & b & c & Ha & Hb & Hc & ->);
      [apply header_of_response_with | reflexivity..|].
    injection Ha as <-. injection Hb as <-. injection Hc as <-.
    reflexivity.
  - destruct (get_range_info_well_formed header_required
                (response_with "bytes 0-1023/2048") mark (World 0 [])
                "bytes" "0" "1023" "2048")
      as (a & b & c & Ha & Hb & Hc & ->);
      [apply header_of_response_with | reflexivity..|].
    injection Ha as <-. injection Hb as <-. injection Hc as <-.
    reflexivity.
  - destruct (get_range_info_well_formed header_required
                (response_with "bytes 999-500/10") mark (World 0 [])
                "bytes" "999" "500" "10")
      as (a & b & c & Ha & Hb & Hc & ->);
      [apply header_of_response_with | reflexivity..|].
    injection Ha as <-. injection Hb as <-. injection Hc as <-.
    reflexivity.
Defined.

(** The error path.  When the [Content-Range] value is present and the
    pattern does not match it, the callback is invoked exactly once and the
    call ends with an exception, whatever the callback does; when the
    callback comes back, that exception is the [InvalidResponse] of the
    malformed range, raised after the callback has acted; with the default
    callback nothing observable changes and the exception is the same. *)
Theorem get_range_info_malformed {W : Type}
    (lookup_header : Response → string → outcome string)
    (response : Response) (v : string) (callback : callable W)
    (w : world W) :
  lookup_header response CONTENT_RANGE_HEADER = Return v →
  re_match _CONTENT_RANGE_RE v = None →
  (∃ e, get_range_info lookup_header response callback w
        = (World (S (invocations w)) (callback (store w)).1, Raise e))
  ∧ (∀ s', callback (store w) = (s', Return tt) →
       get_range_info lookup_header response callback w
       = (World (S (invocations w)) s',
          Raise (InvalidResponse response "Unexpected content-range header"
                   v expected_form)))
  ∧ get_range_info lookup_header response do_nothing w
    = (World (S (invocations w)) (store w),
       Raise (InvalidResponse response "Unexpected content-range header"
                v expected_form)).
Proof.
  intros Hv Hno. split; [|split].
  - rewrite (get_range_info_no_match _ _ _ _ _ Hv Hno).
    destruct (callback (store w)).2; by eexists.
  - intros s' Hcb.
    rewrite (get_range_info_no_match _ _ _ _ _ Hv Hno). by rewrite Hcb.
  - by rewrite (get_range_info_no_match _ _ _ _ _ Hv Hno).
Qed.

Lemma get_range_info_malformed_witness :
  get_range_info header_required (response_with "bytes abc-999/1000")
    mark (World 0 [])
  = (World 1 ["called"],
     Raise (malformed_error (response_with "bytes abc-999/1000")
              "bytes abc-999/1000"))
  ∧ get_range_info header_required (response_with "500-999/1000")
      mark (World 0 [])
    = (World 1 ["called"],
       Raise (malformed_error (response_with "500-999/1000")
                "500-999/1000"))
  ∧ get_range_info header_required (response_with "bytes 500-999")
      mark (World 0 [])
    = (World 1 ["called"],
       Raise (malformed_error (response_with "bytes 500-999")
                "bytes 500-999"))
  ∧ ∃ e, get_range_info header_required (response_with "bytes 500-999")
           failing (World 0 [])
         = (World 1 [], Raise e).
Proof.
  split; [|split; [|split]].
  - apply (get_range_info_malformed header_required
             (response_with "bytes abc-999/1000")
             "bytes abc-999/1000" mark (World 0 []));
      [apply header_of_response_with | reflexivity | reflexivity].
  - apply (get_range_info_malformed header_required
             (response_with "500-999/1000")
             "500-999/1000" mark (World 0 []));
      [apply header_of_response_with | reflexivity | reflexivity].
  - apply (get_range_info_malformed header_required
             (response_with "bytes 500-999")
             "bytes 500-999" mark (World 0 []));
      [apply header_of_response_with | reflexivity | reflexivity].
  - apply (get_range_info_malformed header_required
             (response_with "bytes 500-999")
             "bytes 500-999" failing (World 0 []));
      [apply header_of_response_with | reflexivity].
Defined.

(** C7. Where the code departs from the claim: the value
    [bytes 0-1/2xyz] is present and is not of the form
    [bytes {start}-{end}/{total}], and yet the callback is not invoked (no
    invocation is counted, no mark is left) and no [InvalidResponse]
    propagates: the call returns [(0, 1, 2)].  The pattern has no anchor
    at the end, so the value is taken for a well-formed one. *)
Theorem get_range_info_malformed_unsignalled (n : nat)
    (marks : list string) :
  header_required (response_with "bytes 0-1/2xyz") CONTENT_RANGE_HEADER
  = Return "bytes 0-1/2xyz"
  ∧ ¬ content_range_grammar "bytes 0-1/2xyz"
  ∧ get_range_info header_required (response_with "bytes 0-1/2xyz")
      mark (World n marks)
    = (World n marks, Return (0, 1, 2))
  ∧ get_range_info header_required (response_with "bytes 0-1/2xyz")
      do_nothing (World n marks)
    = (World n marks, Return (0, 1, 2)).
Proof.
  split; [done|]. split; [|done].
  rewrite content_range_grammar_scan. by intros (m & [= <-] & Hrest).
Qed.

(** C9. A triple is returned only when the header was found and the
    pattern matched it, and its three components are then non-negative;
    this holds whatever the header lookup is. *)
Theorem get_range_info_nonnegative {W : Type}
    (lookup_header : Response → string → outcome string)
    (response : Response) (callback : callable W) (w w' : world W)
    (start_byte end_byte total_bytes : Z) :
  get_range_info lookup_header response callback w
    = (w', Return (start_byte, end_byte, total_bytes)) →
  0 ≤ start_byte ∧ 0 ≤ end_byte ∧ 0 ≤ total_bytes
  ∧ ∃ v m, lookup_header response CONTENT_RANGE_HEADER = Return v
           ∧ re_match _CONTENT_RANGE_RE v = Some m.
Proof.
  intros Hcall.
  destruct (get_range_info_cases lookup_header response callback w)
    as [(e & _ & H) | [(v & _ & _ & H) | (v & m & s & e & t & Hv & Hm & _
                                          & Hs & He & Ht & H)]];
    rewrite H in Hcall.
  - done.
  - injection Hcall as _ Hcall. by destruct (callback (store w)).2.
  - injection Hcall as _ <- <- <-.
    repeat split;
      try (apply decimal_value_nonneg; [by apply is_number_all_digits|done]).
    by exists v, m.
Qed.

Lemma get_range_info_nonnegative_witness :
  0 ≤ 500 ∧ 0 ≤ 999 ∧ 0 ≤ 1000
  ∧ ∃ v m,
      header_required (response_with "bytes 500-999/1000")
        CONTENT_RANGE_HEADER = Return v
      ∧ re_match _CONTENT_RANGE_RE v = Some m.
Proof.
  apply (get_range_info_nonnegative header_required
           (response_with "bytes 500-999/1000") mark
           (World 0 []) (World 0 []) 500 999 1000).
  reflexivity.
Defined.

(** C10. When the response has no [Content-Range] header, the call ends
    with the failure of the header lookup, which is not the
    [InvalidResponse] of the malformed range, and the callback is not
    invoked: the world is as it was. *)
Theorem get_range_info_missing_header {W : Type} (response : Response)
    (callback : callable W) (w : world W) :
  headers response !! CONTENT_RANGE_HEADER = None →
  ∃ e, header_required response CONTENT_RANGE_HEADER = Raise e
       ∧ get_range_info header_required response callback w = (w, Raise e)
       ∧ ∀ r message observed expected,
           e ≠ InvalidResponse r message observed expected.
Proof.
  intros Habsent. apply header_required_absent in Habsent.
  eexists. split; [done|]. split; [|done].
  by apply get_range_info_propagates.
Qed.

Lemma get_range_info_missing_header_witness :
  ∃ e, header_required {| headers := ∅ |} CONTENT_RANGE_HEADER = Raise e
       ∧ get_range_info header_required {| headers := ∅ |} mark
           (World 0 [])
         = (World 0 [], Raise e)
       ∧ ∀ r message observed expected,
           e ≠ InvalidResponse r message observed expected.
Proof.
  apply (get_range_info_missing_header {| headers := ∅ |} mark (World 0 [])).
  reflexivity.
Defined.

(** C1. Where the code departs from the grammar: the value
    [bytes 0-1/2xyz] is not of the form [bytes {start}-{end}/{total}], and
    yet the call returns [(0, 1, 2)] instead of raising [InvalidResponse]:
    the pattern is anchored at the start of the value only. *)
Theorem get_range_info_trailing_characters {W : Type}
    (callback : callable W) (w : world W) :
  ¬ content_range_grammar "bytes 0-1/2xyz"
  ∧ get_range_info header_required (response_with "bytes 0-1/2xyz")
      callback w
    = (w, Return (0, 1, 2)).
Proof.
  split; [|done].
  rewrite content_range_grammar_scan. by intros (m & [= <-] & Hrest).
Qed.

(** * Further properties of the code *)

(** ** [add_bytes_range]: successive calls and distinct requests *)

(** X1. On one mapping the last call that gives a bound decides the
    [range] header: it overwrites what an earlier call wrote, a repeated
    call changes nothing more, and a call with no bound leaves the earlier
    header in place (it does not clear it). *)
Theorem add_bytes_range_last_call (start1 end1 start2 end2 : option Z)
    (headers : gmap string string) :
  (start2 ≠ None ∨ end2 ≠ None →
     add_bytes_range start2 end2 (add_bytes_range start1 end1 headers)
     = add_bytes_range start2 end2 headers)
  ∧ add_bytes_range start1 end1 (add_bytes_range start1 end1 headers)
    = add_bytes_range start1 end1 headers
  ∧ add_bytes_range None None (add_bytes_range start1 end1 headers)
    = add_bytes_range start1 end1 headers.
Proof.
  assert (∀ s e r (h : gmap string string),
            bytes_range s e = Some r →
            add_bytes_range s e (add_bytes_range start1 end1 h)
            = add_bytes_range s e h) as Hover.
  { intros s e r h Hr. unfold add_bytes_range. rewrite Hr.
    destruct (bytes_range start1 end1); [|done].
    by rewrite insert_insert_eq. }
  split; [|split; [|done]].
  - intros Hgiven. unfold bytes_range in Hover.
    destruct start2 as [s|], end2 as [e|]; try (by eapply Hover).
    + destruct (s <? 0) eqn:Hs; eapply Hover; by rewrite Hs.
    + destruct Hgiven as [H|H]; by destruct H.
  - destruct (bytes_range start1 end1) as [r|] eqn:Hr; [by eapply Hover|].
    unfold add_bytes_range. by rewrite Hr.
Qed.

Lemma add_bytes_range_last_call_witness :
  add_bytes_range None (Some 499)
    (add_bytes_range (Some 500) (Some 999) {[ "accept" := "*/*" ]})
  = add_bytes_range None (Some 499) {[ "accept" := "*/*" ]}.
Proof.
  apply (add_bytes_range_last_call (Some 500) (Some 999) None (Some 499)
           {[ "accept" := "*/*" ]}).
  right. discriminate.
Defined.

Lemma span_digits_format_d (n : Z) (rest : string) :
  0 ≤ n → starts_with_digit rest = false →
  span_digits (format_d n +:+ rest) = (format_d n, rest).
Proof.
  intros Hn Hrest. apply span_digits_app; [|done].
  by apply is_number_all_digits, format_d_number.
Qed.

Lemma format_d_inj (n m : Z) : format_d n = format_d m → n = m.
Proof. apply (inj pretty). Qed.

Lemma format_d_nonempty (n : Z) : format_d n ≠ "".
Proof.
  destruct (Z.lt_ge_cases n 0) as [Hn|Hn].
  - by rewrite format_d_negative.
  - pose proof (format_d_number n Hn) as H. by destruct (format_d n).
Qed.

Lemma span_digits_negative (n : Z) :
  n < 0 → span_digits (format_d n) = ("", format_d n).
Proof. intros Hn. rewrite format_d_negative by exact Hn. reflexivity. Qed.

Lemma span_digits_dash (n : Z) (rest : string) :
  0 ≤ n →
  span_digits (format_d n +:+ "-" +:+ rest) = (format_d n, "-" +:+ rest).
Proof. intros Hn. apply span_digits_format_d; [exact Hn | reflexivity]. Qed.

Lemma span_digits_open (n : Z) :
  0 ≤ n → span_digits (format_d n +:+ "-") = (format_d n, "-").
Proof. intros Hn. apply span_digits_format_d; [exact Hn | reflexivity]. Qed.

(** X2. Among the requests the source documents as valid, two that differ
    write different headers, except that no [start] with an [end] writes
    what [start=0] with that [end] writes. *)
Theorem bytes_range_distinct (start1 end1 start2 end2 : option Z) :
  documented_request start1 end1 = true →
  documented_request start2 end2 = true →
  bytes_range start1 end1 = bytes_range start2 end2 →
  canonical_request start1 end1 = canonical_request start2 end2.
Proof.
  assert (∀ s e, documented_request s e = true →
            bytes_range s e
            = bytes_range (canonical_request s e).1 (canonical_request s e).2
            ∧ documented_request (canonical_request s e).1
                (canonical_request s e).2 = true
            ∧ ((canonical_request s e).1 = None
               → (canonical_request s e).2 = None)) as Hcanon.
  { intros [s|] [e|] H; cbn [canonical_request fst snd]; 
      repeat split; try exact H; try reflexivity; try discriminate. }
  intros H1 H2 Heq.
  destruct (Hcanon _ _ H1) as (E1 & V1 & N1).
  destruct (Hcanon _ _ H2) as (E2 & V2 & N2).
  rewrite E1, E2 in Heq. clear E1 E2 H1 H2 Hcanon.
  destruct (canonical_request start1 end1) as [s1 e1].
  destruct (canonical_request start2 end2) as [s2 e2].
  cbn [fst snd] in *. clear start1 end1 start2 end2.
  unfold bytes_range, documented_request in *.
  destruct s1 as [s1|], s2 as [s2|].
  2:{ rewrite (N2 eq_refl) in Heq. destruct e1; [|destruct (s1 <? 0)]; discriminate Heq. }
  2:{ rewrite (N1 eq_refl) in Heq. destruct e2; [|destruct (s2 <? 0)]; discriminate Heq. }
  2:{ rewrite (N1 eq_refl), (N2 eq_refl). reflexivity. }
  clear N1 N2.
  destruct e1 as [e1|], e2 as [e2|].
  - apply andb_true_iff in V1 as [V1 _], V2 as [V2 _].
    apply Z.leb_le in V1, V2.
    injection Heq as Heq. apply (f_equal span_digits) in Heq.
    rewrite !span_digits_dash in Heq by assumption.
    injection Heq as Hs He.
    rewrite (format_d_inj _ _ Hs), (format_d_inj _ _ He). reflexivity.
  - apply andb_true_iff in V1 as [V1 _]. apply Z.leb_le in V1.
    destruct (s2 <? 0) eqn:Hs2; injection Heq as Heq;
      apply (f_equal span_digits) in Heq;
      rewrite span_digits_dash in Heq by assumption.
    + apply Z.ltb_lt in Hs2. rewrite (span_digits_negative _ Hs2) in Heq.
      injection Heq as Heq _. destruct (format_d_nonempty s1 Heq).
    + apply Z.ltb_ge in Hs2.
      rewrite span_digits_open in Heq by assumption.
      injection Heq as _ Heq. destruct (format_d_nonempty e1 Heq).
  - apply andb_true_iff in V2 as [V2 _]. apply Z.leb_le in V2.
    destruct (s1 <? 0) eqn:Hs1; injection Heq as Heq;
      apply (f_equal span_digits) in Heq;
      rewrite span_digits_dash in Heq by assumption.
    + apply Z.ltb_lt in Hs1. rewrite (span_digits_negative _ Hs1) in Heq.
      injection Heq as Heq _. symmetry in Heq.
      destruct (format_d_nonempty s2 Heq).
    + apply Z.ltb_ge in Hs1.
      rewrite span_digits_open in Heq by assumption.
      injection Heq as _ Heq. symmetry in Heq.
      destruct (format_d_nonempty e2 Heq).
  - destruct (s1 <? 0) eqn:Hs1, (s2 <? 0) eqn:Hs2; injection Heq as Heq.
    + rewrite (format_d_inj _ _ Heq). reflexivity.
    + apply Z.ltb_lt in Hs1. apply Z.ltb_ge in Hs2.
      apply (f_equal span_digits) in Heq.
      rewrite (span_digits_negative _ Hs1), span_digits_open
        in Heq by assumption.
      injection Heq as Heq _. symmetry in Heq.
      destruct (format_d_nonempty s2 Heq).
    + apply Z.ltb_ge in Hs1. apply Z.ltb_lt in Hs2.
      apply (f_equal span_digits) in Heq.
      rewrite (span_digits_negative _ Hs2), span_digits_open
        in Heq by assumption.
      injection Heq as Heq _. destruct (format_d_nonempty s1 Heq).
    + apply Z.ltb_ge in Hs1, Hs2.
      apply (f_equal span_digits) in Heq.
      rewrite !span_digits_open in Heq by assumption.
      injection Heq as Heq. rewrite (format_d_inj _ _ Heq). reflexivity.
Qed.

Lemma bytes_range_distinct_witness :
  canonical_request None (Some 499) = canonical_request (Some 0) (Some 499).
Proof.
  apply (bytes_range_distinct None (Some 499) (Some 0) (Some 499));
    reflexivity.
Defined.

(** ** [get_range_info]: what is accepted, what is rejected *)

Lemma decimal_value_format_d (n : Z) :
  0 ≤ n → decimal_value 0 (format_d n) = n.
Proof.
  intros Hn. pose proof (int_format_d n Hn) as H.
  rewrite int_is_Some in H by (apply format_d_number; exact Hn).
  injection H as H. exact H.
Qed.

(** A value that begins with a text of the grammar, followed by anything
    that does not begin with a digit. *)
Lemma get_range_info_prefix {W : Type}
    (lookup_header : Response → string → outcome string)
    (response : Response) (callback : callable W) (w : world W)
    (tok s e t rest : string) :
  lookup_header response CONTENT_RANGE_HEADER
    = Return (tok +:+ " " +:+ s +:+ "-" +:+ e +:+ "/" +:+ t +:+ rest) →
  is_bytes_token tok = true →
  is_number s = true → is_number e = true → is_number t = true →
  starts_with_digit rest = false →
  get_range_info lookup_header response callback w
  = (w, Return (decimal_value 0 s, decimal_value 0 e, decimal_value 0 t)).
Proof.
  intros Hv Htok Hs He Ht Hrest.
  pose proof (scan_content_range_app tok s e t rest Htok Hs He Ht Hrest)
    as Hm.
  rewrite <-re_match_scan in Hm.
  destruct (get_range_info_match lookup_header response callback w _ _
              Hv Hm) as (s' & e' & t' & Hgroups & _ & _ & _ & Hcall).
  cbn [captured] in Hgroups. injection Hgroups as <- <- <-. exact Hcall.
Qed.

(** X3. Round trip: the header a server writes for three non-negative
    integers, [bytes {a}-{b}/{c}] with the decimal rendering that
    [add_bytes_range] uses, is read back as [(a, b, c)].  The integers are
    taken within the interpreter's limit on conversions, past which the
    rendering and the reading themselves fail. *)
Theorem get_range_info_round_trip {W : Type}
    (lookup_header : Response → string → outcome string)
    (response : Response) (callback : callable W) (w : world W)
    (a b c : Z) :
  0 ≤ a → 0 ≤ b → 0 ≤ c →
  (String.length (format_d a) ≤ int_max_str_digits)%nat →
  (String.length (format_d b) ≤ int_max_str_digits)%nat →
  (String.length (format_d c) ≤ int_max_str_digits)%nat →
  lookup_header response CONTENT_RANGE_HEADER
    = Return ("bytes " +:+ format_d a +:+ "-" +:+ format_d b
                +:+ "/" +:+ format_d c) →
  get_range_info lookup_header response callback w = (w, Return (a, b, c)).
Proof.
  intros Ha Hb Hc _ _ _ Hv.
  rewrite (get_range_info_grammar lookup_header response callback w
             "bytes" (format_d a) (format_d b) (format_d c));
    [| exact Hv | reflexivity | by apply format_d_number..].
  by rewrite !decimal_value_format_d.
Qed.

Lemma get_range_info_round_trip_witness :
  get_range_info header_required
    (response_with "bytes 1024-4294967295/18446744073709551616")
    mark (World 0 [])
  = (World 0 [], Return (1024, 4294967295, 18446744073709551616)).
Proof.
  apply (get_range_info_round_trip header_required
           (response_with "bytes 1024-4294967295/18446744073709551616")
           mark (World 0 []) 1024 4294967295 18446744073709551616);
    [lia | lia | lia | vm_compute; lia | vm_compute; lia | vm_compute; lia
    | apply header_of_response_with].
Defined.

(** X4. Whatever follows the total is not looked at, as long as it does
    not begin with a digit: the value with the trailing text gives the
    triple that the value without it gives. *)
Theorem get_range_info_ignores_trailing_text {W : Type}
    (lookup_header : Response → string → outcome string)
    (response response' : Response) (callback : callable W) (w : world W)
    (p rest : string) :
  content_range_grammar p →
  starts_with_digit rest = false →
  lookup_header response CONTENT_RANGE_HEADER = Return p →
  lookup_header response' CONTENT_RANGE_HEADER = Return (p +:+ rest) →
  ∃ triple,
    get_range_info lookup_header response callback w = (w, Return triple)
    ∧ get_range_info lookup_header response' callback w
      = (w, Return triple).
Proof.
  intros (tok & s & e & t & -> & Htok & Hs & He & Ht) Hrest Hv Hv'.
  exists (decimal_value 0 s, decimal_value 0 e, decimal_value 0 t).
  split.
  - by apply (get_range_info_grammar lookup_header response callback w tok).
  - rewrite !append_assoc in Hv'.
    by apply (get_range_info_prefix lookup_header response' callback w
                tok s e t rest).
Qed.

Lemma get_range_info_ignores_trailing_text_witness :
  ∃ triple,
    get_range_info header_required (response_with "bytes 0-9/10")
      mark (World 0 [])
    = (World 0 [], Return triple)
    ∧ get_range_info header_required
        (response_with "bytes 0-9/10; charset=x") mark (World 0 [])
      = (World 0 [], Return triple).
Proof.
  apply (get_range_info_ignores_trailing_text header_required
           (response_with "bytes 0-9/10")
           (response_with "bytes 0-9/10; charset=x")
           mark (World 0 []) "bytes 0-9/10" "; charset=x");
    [| reflexivity | apply header_of_response_with
     | apply header_of_response_with].
  exists "bytes", "0", "9", "10". repeat split.
Defined.

Lemma bytes_token_letters tok :
  is_bytes_token tok = true →
  ∃ c1 c2 c3 c4 c5,
    tok = String c1 (String c2 (String c3 (String c4 (String c5 ""))))
    ∧ lower c1 = "b"%char ∧ lower c2 = "y"%char ∧ lower c3 = "t"%char
    ∧ lower c4 = "e"%char ∧ lower c5 = "s"%char.
Proof.
  intros Htok. apply bool_decide_eq_true in Htok.
  destruct tok as [|c1 [|c2 [|c3 [|c4 [|c5 [|? ?]]]]]];
    simpl in Htok; try discriminate Htok.
  injection Htok as H1 H2 H3 H4 H5.
  by exists c1, c2, c3, c4, c5.
Qed.

(** After a casing of [bytes] the scanner goes on in the same way,
    whatever the casing. *)
Lemma scan_content_range_casing tok tok' rest :
  is_bytes_token tok = true → is_bytes_token tok' = true →
  captured <$> scan_content_range (tok +:+ rest)
  = captured <$> scan_content_range (tok' +:+ rest).
Proof.
  intros Htok Htok'.
  destruct (bytes_token_letters tok Htok)
    as (c1 & c2 & c3 & c4 & c5 & -> & H1 & H2 & H3 & H4 & H5).
  destruct (bytes_token_letters tok' Htok')
    as (d1 & d2 & d3 & d4 & d5 & -> & G1 & G2 & G3 & G4 & G5).
  rewrite !append_cons, !append_nil.
  unfold scan_content_range, scan_literal.
  destruct rest as [|c rest]; simpl;
    rewrite H1, H2, H3, H4, H5, G1, G2, G3, G4, G5; simpl; [done|].
  destruct (bool_decide (lower " " = lower c)); [|done].
  by destruct (scan_then _ _ rest).
Qed.

Lemma get_range_info_returns_iff {W : Type}
    (lookup_header : Response → string → outcome string)
    (response : Response) (callback : callable W) (w : world W)
    (v : string) (triple : Z * Z * Z) :
  lookup_header response CONTENT_RANGE_HEADER = Return v →
  get_range_info lookup_header response callback w = (w, Return triple)
  ↔ ∃ s e t,
      captured <$> re_match _CONTENT_RANGE_RE v
      = Some [("start_byte", s); ("end_byte", e); ("total_bytes", t)]
      ∧ triple = (decimal_value 0 s, decimal_value 0 e, decimal_value 0 t).
Proof.
  intros Hv. destruct (re_match _CONTENT_RANGE_RE v) as [m|] eqn:Hm.
  - destruct (get_range_info_match lookup_header response callback w v m
                Hv Hm) as (s & e & t & Hgroups & _ & _ & _ & Hcall).
    rewrite Hcall. simpl. rewrite Hgroups. split.
    + intros [= <-]. by exists s, e, t.
    + intros (s' & e' & t' & [= <- <- <-] & ->). done.
  - rewrite (get_range_info_no_match lookup_header response callback w v
               Hv Hm). simpl. split.
    + intros [= _ H]. by destruct (callback (store w)).2.
    + by intros (s & e & t & H & _).
Qed.

(** X5. The casing of the token never changes what the call returns: if
    two values differ only in the case of the letters of their first five
    characters, a casing of [bytes], then one is accepted exactly when the
    other is, with the same triple, whatever comes after the token. *)
Theorem get_range_info_casing {W : Type}
    (lookup_header : Response → string → outcome string)
    (response response' : Response) (callback : callable W) (w : world W)
    (tok tok' rest : string) (triple : Z * Z * Z) :
  is_bytes_token tok = true → is_bytes_token tok' = true →
  lookup_header response CONTENT_RANGE_HEADER = Return (tok +:+ rest) →
  lookup_header response' CONTENT_RANGE_HEADER = Return (tok' +:+ rest) →
  get_range_info lookup_header response callback w = (w, Return triple)
  ↔ get_range_info lookup_header response' callback w = (w, Return triple).
Proof.
  intros Htok Htok' Hv Hv'.
  rewrite (get_range_info_returns_iff _ _ _ _ _ _ Hv).
  rewrite (get_range_info_returns_iff _ _ _ _ _ _ Hv').
  by rewrite !re_match_scan, (scan_content_range_casing tok tok' rest).
Qed.

Lemma get_range_info_casing_witness :
  get_range_info header_required (response_with "bYtEs 7-11/42")
    mark (World 0 [])
  = (World 0 [], Return (7, 11, 42))
  ↔ get_range_info header_required (response_with "BYTES 7-11/42")
      mark (World 0 [])
    = (World 0 [], Return (7, 11, 42)).
Proof.
  apply (get_range_info_casing header_required
           (response_with "bYtEs 7-11/42") (response_with "BYTES 7-11/42")
           mark (World 0 []) "bYtEs" "BYTES" " 7-11/42" (7, 11, 42));
    [reflexivity | reflexivity
     | apply header_of_response_with | apply header_of_response_with].
Defined.

Lemma string_length_app (a b : string) :
  String.length (a +:+ b) = (String.length a + String.length b)%nat.
Proof.
  induction a as [|c a IH]; [done|].
  rewrite append_cons. simpl. by rewrite IH.
Qed.

Lemma is_number_length s : is_number s = true → (1 ≤ String.length s)%nat.
Proof. destruct s; [done|]. simpl. lia. Qed.

(** X6. No value shorter than the shortest well-formed one, [bytes 0-0/0]
    with its eleven characters, is accepted; in particular the empty value
    is rejected, with the [InvalidResponse] of the malformed range. *)
Theorem get_range_info_short_value {W : Type}
    (lookup_header : Response → string → outcome string)
    (response : Response) (w : world W) (v : string) :
  (String.length v < 11)%nat →
  lookup_header response CONTENT_RANGE_HEADER = Return v →
  re_match _CONTENT_RANGE_RE v = None
  ∧ get_range_info lookup_header response do_nothing w
    = (World (S (invocations w)) (store w),
       Raise (malformed_error response v)).
Proof.
  intros Hlen Hv.
  assert (re_match _CONTENT_RANGE_RE v = None) as Hno.
  { destruct (re_match _CONTENT_RANGE_RE v) as [m|] eqn:Hm; [|done].
    rewrite re_match_scan in Hm.
    apply scan_content_range_Some in Hm
      as (tok & s & e & t & -> & Htok & Hs & He & Ht & _).
    destruct (bytes_token_letters tok Htok) as (? & ? & ? & ? & ? & -> & _).
    apply is_number_length in Hs, He, Ht.
    rewrite !string_length_app in Hlen. simpl in Hlen. lia. }
  split; [done|].
  by rewrite (get_range_info_no_match lookup_header response do_nothing w v
                Hv Hno).
Qed.

Lemma get_range_info_short_value_witness :
  re_match _CONTENT_RANGE_RE "" = None
  ∧ get_range_info header_required (response_with "") do_nothing
      (World 0 tt)
    = (World 1 tt, Raise (malformed_error (response_with "") "")).
Proof.
  apply (get_range_info_short_value header_required (response_with "")
           (World 0 tt) ""); [simpl; lia | apply header_of_response_with].
Defined.

Lemma scan_number_None name rest :
  starts_with_digit rest = false → scan_number name rest = None.
Proof.
  intros Hrest. unfold scan_number.
  destruct rest as [|c rest]; simpl in *; [done|]. by rewrite Hrest.
Qed.

Lemma strip_bytes_token tok rest :
  is_bytes_token tok = true →
  strip_literal true "bytes " (tok +:+ " " +:+ rest)
  = Some (tok +:+ " ", rest).
Proof.
  intros Htok. apply bool_decide_eq_true in Htok.
  rewrite <-(append_assoc tok " ").
  apply strip_literal_app. by rewrite lower_text_app, Htok.
Qed.

(** X7. Each of the three numbers is required: a value in which the place
    of the start, of the end or of the total is taken by something that
    does not begin with a digit (a star for an unknown total or an
    unsatisfied range, a sign, nothing at all) is rejected with the
    [InvalidResponse] of the malformed range. *)
Theorem get_range_info_needs_numbers {W : Type}
    (lookup_header : Response → string → outcome string)
    (response : Response) (w : world W) (v tok s e other : string) :
  is_bytes_token tok = true →
  is_number s = true → is_number e = true →
  starts_with_digit other = false →
  v = tok +:+ " " +:+ other
  ∨ v = tok +:+ " " +:+ s +:+ "-" +:+ other
  ∨ v = tok +:+ " " +:+ s +:+ "-" +:+ e +:+ "/" +:+ other →
  lookup_header response CONTENT_RANGE_HEADER = Return v →
  get_range_info lookup_header response do_nothing w
  = (World (S (invocations w)) (store w),
     Raise (malformed_error response v)).
Proof.
  intros Htok Hs He Hother Hform Hv.
  rewrite (get_range_info_no_match lookup_header response do_nothing w v
             Hv); [done|].
  rewrite re_match_scan.
  unfold scan_content_range, scan_literal, scan_then.
  destruct Hform as [-> | [-> | ->]]; rewrite strip_bytes_token by done.
  - by rewrite scan_number_None.
  - rewrite (scan_number_app _ s) by done. simpl. rewrite append_nil.
    by rewrite scan_number_None.
  - rewrite (scan_number_app _ s) by done. simpl. rewrite append_nil.
    rewrite (scan_number_app _ e) by done. simpl. rewrite append_nil.
    by rewrite scan_number_None.
Qed.

Lemma get_range_info_needs_numbers_witness :
  get_range_info header_required (response_with "bytes 0-499/*")
    do_nothing (World 0 tt)
  = (World 1 tt,
     Raise (malformed_error (response_with "bytes 0-499/*")
              "bytes 0-499/*"))
  ∧ get_range_info header_required (response_with "bytes */1000")
      do_nothing (World 0 tt)
    = (World 1 tt,
       Raise (malformed_error (response_with "bytes */1000")
                "bytes */1000")).
Proof.
  split.
  - apply (get_range_info_needs_numbers header_required
             (response_with "bytes 0-499/*") (World 0 tt)
             "bytes 0-499/*" "bytes" "0" "499" "*");
      [reflexivity.. | right; right; reflexivity
       | apply header_of_response_with].
  - apply (get_range_info_needs_numbers header_required
             (response_with "bytes */1000") (World 0 tt)
             "bytes */1000" "bytes" "0" "0" "*/1000");
      [reflexivity.. | left; reflexivity | apply header_of_response_with].
Defined.

(** X8. The pattern is matched at the first character of the value and is
    not searched for: a value whose first character is neither [b] nor [B]
    is rejected, even when a well-formed value follows that character. *)
Theorem get_range_info_anchored_at_start {W : Type}
    (lookup_header : Response → string → outcome string)
    (response : Response) (w : world W) (c : ascii) (v : string) :
  lower c ≠ "b"%char →
  lookup_header response CONTENT_RANGE_HEADER = Return (String c v) →
  get_range_info lookup_header response do_nothing w
  = (World (S (invocations w)) (store w),
     Raise (malformed_error response (String c v))).
Proof.
  intros Hc Hv.
  rewrite (get_range_info_no_match lookup_header response do_nothing w _
             Hv); [done|].
  rewrite re_match_scan.
  unfold scan_content_range, scan_literal. simpl.
  rewrite bool_decide_eq_false_2; [done|].
  intros H. apply Hc. symmetry. exact H.
Qed.

Lemma get_range_info_anchored_at_start_witness :
  get_range_info header_required (response_with " bytes 0-9/10")
    do_nothing (World 0 tt)
  = (World 1 tt,
     Raise (malformed_error (response_with " bytes 0-9/10")
              " bytes 0-9/10")).
Proof.
  apply (get_range_info_anchored_at_start header_required
           (response_with " bytes 0-9/10") (World 0 tt) " " "bytes 0-9/10");
    [discriminate | apply header_of_response_with].
Defined.

(** ** [get_range_info]: the callback and the exceptions *)

(** X9. The callback is invoked at most once, and exactly when the header
    was found and the pattern does not match it; when the header lookup
    fails or the value is accepted, the call leaves the world as it
    was. *)
Theorem get_range_info_callback_use {W : Type}
    (lookup_header : Response → string → outcome string)
    (response : Response) (callback : callable W) (w : world W) :
  (get_range_info lookup_header response callback w).1
  = match lookup_header response CONTENT_RANGE_HEADER with
    | Return v =>
        match re_match _CONTENT_RANGE_RE v with
        | None => World (S (invocations w)) (callback (store w)).1
        | Some _ => w
        end
    | Raise _ => w
    end.
Proof.
  destruct (get_range_info_cases lookup_header response callback w)
    as [(e & Hv & ->) | [(v & Hv & Hm & ->)
                        | (v & m & s & e & t & Hv & Hm & _ & _ & _ & _ & ->)]];
    by rewrite Hv, ?Hm.
Qed.

Lemma re_match_groups_length v m :
  re_match _CONTENT_RANGE_RE v = Some m →
  Forall (λ g : string * string,
            (String.length g.2 ≤ String.length v)%nat) (captured m).
Proof.
  rewrite re_match_scan. intros Hm.
  apply scan_content_range_Some in Hm
    as (tok & s & e & t & -> & _ & _ & _ & _ & _ & _ & ->).
  rewrite !string_length_app.
  repeat apply Forall_cons_2; simpl; try lia. apply Forall_nil_2.
Qed.

(** X10. For a header value within the interpreter's limit on
    conversions, every group that [int] reads is within that limit, and
    the exceptions that come out of the call are the one the header lookup
    raised, the one the callback raised, and the [InvalidResponse] of the
    malformed range carrying the response and the value looked up. *)
Theorem get_range_info_exceptions {W : Type}
    (lookup_header : Response → string → outcome string)
    (response : Response) (callback : callable W) (w : world W) (e : exn) :
  (∀ v, lookup_header response CONTENT_RANGE_HEADER = Return v →
        (String.length v ≤ int_max_str_digits)%nat) →
  (∀ v m, lookup_header response CONTENT_RANGE_HEADER = Return v →
          re_match _CONTENT_RANGE_RE v = Some m →
          Forall (λ g : string * string,
                    (String.length g.2 ≤ int_max_str_digits)%nat)
                 (captured m))
  ∧ ((get_range_info lookup_header response callback w).2 = Raise e →
     lookup_header response CONTENT_RANGE_HEADER = Raise e
     ∨ ∃ v, lookup_header response CONTENT_RANGE_HEADER = Return v
            ∧ re_match _CONTENT_RANGE_RE v = None
            ∧ ((callback (store w)).2 = Raise e
               ∨ (callback (store w)).2 = Return tt
                 ∧ e = malformed_error response v)).
Proof.
  intros Hlimit. split.
  { intros v m Hv Hm. specialize (Hlimit v Hv).
    eapply Forall_impl; [by apply re_match_groups_length|].
    intros g Hg. simpl in Hg. lia. }
  destruct (get_range_info_cases lookup_header response callback w)
    as [(e' & Hv & ->) | [(v & Hv & Hm & ->)
                         | (v & m & s & e' & t & Hv & Hm & _ & _ & _ & _ & ->)]];
    simpl; intros He.
  - injection He as <-. by left.
  - right. exists v. split; [done|]. split; [done|].
    destruct (callback (store w)).2 as [[]|e']; injection He as <-; auto.
  - done.
Qed.

Lemma get_range_info_exceptions_witness :
  header_required (response_with "bytes 500-999") CONTENT_RANGE_HEADER
  = Raise (Raised "callback")
  ∨ ∃ v, header_required (response_with "bytes 500-999")
           CONTENT_RANGE_HEADER = Return v
         ∧ re_match _CONTENT_RANGE_RE v = None
         ∧ ((failing []).2 = Raise (Raised "callback")
            ∨ (failing []).2 = Return tt
              ∧ Raised "callback"
                = malformed_error (response_with "bytes 500-999") v).
Proof.
  apply (get_range_info_exceptions header_required
           (response_with "bytes 500-999") failing (World 0 [])
           (Raised "callback")).
  - intros v Hv. rewrite header_of_response_with in Hv.
    injection Hv as <-. vm_compute. lia.
  - reflexivity.
Defined.

Lemma all_zeros_digits z : all_zeros z = true → all_digits z = true.
Proof.
  induction z as [|c z IH]; [done|]. simpl.
  intros [Hc Hz]%andb_true_iff. apply bool_decide_eq_true in Hc as ->.
  by rewrite IH.
Qed.

Lemma decimal_value_zeros z s :
  all_zeros z = true → decimal_value 0 (z +:+ s) = decimal_value 0 s.
Proof.
  induction z as [|c z IH]; [done|]. simpl.
  intros [Hc Hz]%andb_true_iff. apply bool_decide_eq_true in Hc as ->.
  rewrite ?append_cons. simpl. by apply IH.
Qed.

Lemma is_number_zeros z s :
  all_zeros z = true → is_number s = true → is_number (z +:+ s) = true.
Proof.
  intros Hz Hs. destruct z as [|c z]; [done|].
  rewrite append_cons. simpl.
  change (all_digits (String c z +:+ s) = true).
  rewrite all_digits_app, (all_zeros_digits _ Hz).
  by apply is_number_all_digits.
Qed.

(** X11. Zeros in front of a number are accepted and do not change it:
    a value whose numbers are padded with zeros gives the triple of the
    value without the padding. *)
Theorem get_range_info_leading_zeros {W : Type}
    (lookup_header : Response → string → outcome string)
    (response response' : Response) (callback : callable W) (w : world W)
    (tok s e t z1 z2 z3 : string) :
  is_bytes_token tok = true →
  is_number s = true → is_number e = true → is_number t = true →
  all_zeros z1 = true → all_zeros z2 = true → all_zeros z3 = true →
  lookup_header response CONTENT_RANGE_HEADER
    = Return (tok +:+ " " +:+ s +:+ "-" +:+ e +:+ "/" +:+ t) →
  lookup_header response' CONTENT_RANGE_HEADER
    = Return (tok +:+ " " +:+ (z1 +:+ s) +:+ "-" +:+ (z2 +:+ e)
                +:+ "/" +:+ (z3 +:+ t)) →
  ∃ triple,
    get_range_info lookup_header response callback w = (w, Return triple)
    ∧ get_range_info lookup_header response' callback w
      = (w, Return triple).
Proof.
  intros Htok Hs He Ht Hz1 Hz2 Hz3 Hv Hv'.
  exists (decimal_value 0 s, decimal_value 0 e, decimal_value 0 t).
  split.
  - by apply (get_range_info_grammar lookup_header response callback w tok).
  - rewrite (get_range_info_grammar lookup_header response' callback w
               tok (z1 +:+ s) (z2 +:+ e) (z3 +:+ t));
      [| done | done | by apply is_number_zeros..].
    by rewrite !decimal_value_zeros.
Qed.

Lemma get_range_info_leading_zeros_witness :
  ∃ triple,
    get_range_info header_required (response_with "bytes 7-11/42")
      mark (World 0 [])
    = (World 0 [], Return triple)
    ∧ get_range_info header_required (response_with "bytes 007-0011/42")
        mark (World 0 [])
      = (World 0 [], Return triple).
Proof.
  apply (get_range_info_leading_zeros header_required
           (response_with "bytes 7-11/42")
           (response_with "bytes 007-0011/42") mark (World 0 [])
           "bytes" "7" "11" "42" "00" "00" "");
    [reflexivity.. | apply header_of_response_with
     | apply header_of_response_with].
Defined.

(** ** [DownloadBase]: the headers of a download *)

(** X12. Each download built without [headers] gets an empty mapping of
    its own: it is none of the mappings that existed, two such downloads do
    not share it, so a range added to the headers of one is not seen in the
    headers of the other; the mappings that existed are untouched, and the
    new download is not finished. *)
Theorem DownloadBase_default_headers (url1 url2 : string)
    (s1 e1 s2 e2 start end_ : option Z) (h : store_of_mappings) :
  let d1 := DownloadBase.__init__ url1 s1 e1 None h in
  let d2 := DownloadBase.__init__ url2 s2 e2 None d1.2 in
  let after :=
    add_bytes_range_in start end_ (DownloadBase._headers d1.1) d2.2 in
  h !! DownloadBase._headers d1.1 = None
  ∧ DownloadBase._headers d1.1 ≠ DownloadBase._headers d2.1
  ∧ d2.2 !! DownloadBase._headers d1.1 = Some ∅
  ∧ d2.2 !! DownloadBase._headers d2.1 = Some ∅
  ∧ h ⊆ d2.2
  ∧ after !! DownloadBase._headers d1.1
    = Some (add_bytes_range start end_ ∅)
  ∧ after !! DownloadBase._headers d2.1 = Some ∅
  ∧ DownloadBase.finished d1.1 = false
  ∧ DownloadBase.finished d2.1 = false.
Proof.
  unfold DownloadBase.__init__, add_bytes_range_in. simpl.
  set (r1 := fresh (dom h)).
  set (h1 := <[r1 := ∅]> h).
  set (r2 := fresh (dom h1)).
  assert (h !! r1 = None) as Hr1.
  { apply not_elem_of_dom, is_fresh. }
  assert (h1 !! r2 = None) as Hr2.
  { apply not_elem_of_dom, is_fresh. }
  assert (r1 ≠ r2) as Hne.
  { intros Heq. rewrite <-Heq in Hr2. unfold h1 in Hr2.
    by rewrite lookup_insert_eq in Hr2. }
  assert (<[r2 := ∅]> h1 !! r1 = Some (∅ : gmap string string)) as Hl1.
  { rewrite lookup_insert_ne by done. unfold h1.
    by rewrite lookup_insert_eq. }
  rewrite Hl1.
  repeat split; try done.
  - by rewrite lookup_insert_eq.
  - trans h1; by apply insert_subseteq.
  - by rewrite lookup_insert_eq.
  - rewrite lookup_insert_ne by done. by rewrite lookup_insert_eq.
Qed.

(** X13. A mapping given as [headers] is kept by reference and not
    copied: building downloads creates and changes no mapping, and a range
    added to the headers of one download is seen through the caller's
    reference and through every other download built with that mapping. *)
Theorem DownloadBase_given_headers (url1 url2 : string)
    (s1 e1 s2 e2 start end_ : option Z) (h : store_of_mappings)
    (r : positive) (mapping : gmap string string) :
  h !! r = Some mapping →
  let d1 := DownloadBase.__init__ url1 s1 e1 (Some r) h in
  let d2 := DownloadBase.__init__ url2 s2 e2 (Some r) d1.2 in
  let after :=
    add_bytes_range_in start end_ (DownloadBase._headers d1.1) d2.2 in
  d2.2 = h
  ∧ after !! r = Some (add_bytes_range start end_ mapping)
  ∧ after !! DownloadBase._headers d2.1
    = Some (add_bytes_range start end_ mapping)
  ∧ after !! DownloadBase._headers d1.1
    = Some (add_bytes_range start end_ mapping).
Proof.
  intros Hr. unfold DownloadBase.__init__, add_bytes_range_in. simpl.
  rewrite Hr. by rewrite lookup_insert_eq.
Qed.

Lemma DownloadBase_given_headers_witness :
  let h : store_of_mappings := {[ 1%positive := {[ "x-key" := "k" ]} ]} in
  let d1 := DownloadBase.__init__ "u" None None (Some 1%positive) h in
  let d2 := DownloadBase.__init__ "v" None None (Some 1%positive) d1.2 in
  add_bytes_range_in (Some 0) (Some 9) (DownloadBase._headers d1.1) d2.2
    !! DownloadBase._headers d2.1
  = Some (add_bytes_range (Some 0) (Some 9) {[ "x-key" := "k" ]}).
Proof.
  apply (DownloadBase_given_headers "u" "v" None None None None
           (Some 0) (Some 9) {[ 1%positive := {[ "x-key" := "k" ]} ]}
           1%positive {[ "x-key" := "k" ]}).
  reflexivity.
Defined.

(** ** The unit token and the separators are literal *)

(** A value whose first five characters are not a casing of [bytes] is
    not matched. *)
Lemma re_match_wrong_unit v :
  is_bytes_token (unit_token v) = false →
  re_match _CONTENT_RANGE_RE v = None.
Proof.
  intros Hwrong. rewrite re_match_scan.
  unfold scan_content_range, scan_literal.
  destruct (strip_literal true "bytes " v) as [[m r]|] eqn:Hstrip; [|done].
  apply strip_literal_Some in Hstrip as [-> Hm].
  destruct m as [|c1 [|c2 [|c3 [|c4 [|c5 [|c6 [|? ?]]]]]]];
    simpl in Hm; try discriminate Hm.
  injection Hm as H1 H2 H3 H4 H5 _.
  unfold unit_token, is_bytes_token in Hwrong.
  rewrite !append_cons in Hwrong. simpl in Hwrong.
  rewrite H1, H2, H3, H4, H5 in Hwrong. done.
Qed.

(** After the token, the separators are the space, the dash and the slash
    themselves: a value with another character in the place of one of them
    is not matched. *)
Lemma re_match_wrong_space tok c rest :
  is_bytes_token tok = true → c ≠ " "%char →
  re_match _CONTENT_RANGE_RE (tok +:+ String c rest) = None.
Proof.
  intros Htok Hc. rewrite re_match_scan.
  destruct (bytes_token_letters tok Htok)
    as (c1 & c2 & c3 & c4 & c5 & -> & H1 & H2 & H3 & H4 & H5).
  rewrite !append_cons, append_nil.
  unfold scan_content_range, scan_literal. simpl.
  rewrite H1, H2, H3, H4, H5. simpl.
  rewrite (bool_decide_eq_false_2 (lower " " = lower c)); [done|].
  intros H. apply lower_separator in H; auto.
Qed.

Lemma strip_wrong_separator sep c rest :
  sep = "-"%char ∨ sep = "/"%char → c ≠ sep →
  strip_literal true (String sep "") (String c rest) = None.
Proof.
  intros Hsep Hc. simpl.
  rewrite (bool_decide_eq_false_2 (lower sep = lower c)); [done|].
  intros H. apply lower_separator in H; [done|]. destruct Hsep; auto.
Qed.

Lemma re_match_wrong_dash tok s c rest :
  is_bytes_token tok = true → is_number s = true →
  is_digit c = false → c ≠ "-"%char →
  re_match _CONTENT_RANGE_RE (tok +:+ " " +:+ s +:+ String c rest) = None.
Proof.
  intros Htok Hs Hd Hc. rewrite re_match_scan.
  unfold scan_content_range, scan_literal, scan_then.
  rewrite strip_bytes_token by done.
  rewrite (scan_number_app _ s) by done. cbn [remaining].
  by rewrite strip_wrong_separator by auto.
Qed.

Lemma re_match_wrong_slash tok s e c rest :
  is_bytes_token tok = true → is_number s = true → is_number e = true →
  is_digit c = false → c ≠ "/"%char →
  re_match _CONTENT_RANGE_RE
    (tok +:+ " " +:+ s +:+ "-" +:+ e +:+ String c rest) = None.
Proof.
  intros Htok Hs He Hd Hc. rewrite re_match_scan.
  unfold scan_content_range, scan_literal, scan_then.
  rewrite strip_bytes_token by done.
  rewrite (scan_number_app _ s) by done. cbn [remaining].
  rewrite (strip_literal_app "-" "-") by done.
  rewrite (scan_number_app _ e) by done. cbn [remaining].
  by rewrite strip_wrong_separator by auto.
Qed.

(** C8. The case of the letters of the token [bytes] does not matter, and
    nothing else is relaxed.  Two well-formed values that differ only in
    the case of the token give the same triple.  A value whose first five
    characters are not a casing of [bytes] (a wrong unit such as
    [chunks 0-1023/2048]), or that has another character in the place of
    the space, the dash or the slash, is not matched and ends with the
    [InvalidResponse] of the malformed range. *)
Theorem get_range_info_ignores_case {W : Type}
    (lookup_header : Response → string → outcome string)
    (response response' : Response) (callback : callable W) (w : world W)
    (tok tok' s e t : string) :
  is_bytes_token tok = true → is_bytes_token tok' = true →
  is_number s = true → is_number e = true → is_number t = true →
  lookup_header response CONTENT_RANGE_HEADER
    = Return (tok +:+ " " +:+ s +:+ "-" +:+ e +:+ "/" +:+ t) →
  lookup_header response' CONTENT_RANGE_HEADER
    = Return (tok' +:+ " " +:+ s +:+ "-" +:+ e +:+ "/" +:+ t) →
  (∃ triple,
     get_range_info lookup_header response callback w
       = (w, Return triple)
     ∧ get_range_info lookup_header response' callback w
       = (w, Return triple))
  ∧ (∀ (other : Response) (v : string),
       lookup_header other CONTENT_RANGE_HEADER = Return v →
       is_bytes_token (unit_token v) = false
       ∨ (∃ c rest, c ≠ " "%char ∧ v = tok +:+ String c rest)
       ∨ (∃ c rest, is_digit c = false ∧ c ≠ "-"%char
                    ∧ v = tok +:+ " " +:+ s +:+ String c rest)
       ∨ (∃ c rest, is_digit c = false ∧ c ≠ "/"%char
                    ∧ v = tok +:+ " " +:+ s +:+ "-" +:+ e
                            +:+ String c rest) →
       re_match _CONTENT_RANGE_RE v = None
       ∧ get_range_info lookup_header other do_nothing w
         = (World (S (invocations w)) (store w),
            Raise (malformed_error other v)))
  ∧ re_match _CONTENT_RANGE_RE "chunks 0-1023/2048" = None
  ∧ get_range_info header_required (response_with "chunks 0-1023/2048")
      do_nothing w
    = (World (S (invocations w)) (store w),
       Raise (malformed_error (response_with "chunks 0-1023/2048")
                "chunks 0-1023/2048")).
Proof.
  intros Htok Htok' Hs He Ht Hv Hv'. split; [|split; [|split; [done|]]].
  - exists (decimal_value 0 s, decimal_value 0 e, decimal_value 0 t).
    split;
      [by apply (get_range_info_grammar _ response callback w tok)
      |by apply (get_range_info_grammar _ response' callback w tok')].
  - intros other v Hother Hwrong.
    assert (re_match _CONTENT_RANGE_RE v = None) as Hno.
    { destruct Hwrong as [Hunit | [(c & rest & Hc & ->)
        | [(c & rest & Hd & Hc & ->) | (c & rest & Hd & Hc & ->)]]].
      - by apply re_match_wrong_unit.
      - by apply re_match_wrong_space.
      - by apply re_match_wrong_dash.
      - by apply re_match_wrong_slash. }
    split; [done|].
    by rewrite (get_range_info_no_match lookup_header other do_nothing w v
                  Hother Hno).
  - by rewrite (get_range_info_no_match header_required _ _ _
                  "chunks 0-1023/2048")
      by (by try apply header_of_response_with).
Qed.

Lemma get_range_info_ignores_case_witness :
  (∃ triple,
     get_range_info header_required (response_with "Bytes 0-0/1")
       mark (World 0 [])
     = (World 0 [], Return triple)
     ∧ get_range_info header_required (response_with "bytes 0-0/1")
         mark (World 0 [])
       = (World 0 [], Return triple))
  ∧ get_range_info header_required (response_with "bites 0-1023/2048")
      do_nothing (World 0 ([] : list string))
    = (World 1 [],
       Raise (malformed_error (response_with "bites 0-1023/2048")
                "bites 0-1023/2048"))
  ∧ get_range_info header_required (response_with "Bytes 0_0/1")
      do_nothing (World 0 ([] : list string))
    = (World 1 [],
       Raise (malformed_error (response_with "Bytes 0_0/1")
                "Bytes 0_0/1")).
Proof.
  destruct (get_range_info_ignores_case header_required
              (response_with "Bytes 0-0/1") (response_with "bytes 0-0/1")
              mark (World 0 []) "Bytes" "bytes" "0" "0" "1")
    as (Hsame & Hreject & _);
    [reflexivity | reflexivity | reflexivity | reflexivity | reflexivity
    | apply header_of_response_with | apply header_of_response_with |].
  split; [exact Hsame|]. split.
  - apply (Hreject (response_with "bites 0-1023/2048")
             "bites 0-1023/2048").
    + apply header_of_response_with.
    + left. reflexivity.
  - apply (Hreject (response_with "Bytes 0_0/1") "Bytes 0_0/1").
    + apply header_of_response_with.
    + right. right. left. exists "_"%char, "0/1".
      split; [reflexivity|]. split; [discriminate | reflexivity].
Defined.
